(** * Supabase MCP server: the in-memory table store of [supabase_server.py]

    A shallow embedding of [handle_mcp_request] and of the module-level
    [tables] dictionary, followed by the properties of the five operations
    (query, insert, update, delete, list_tables).

    Python values are the values [json.loads] produces.  Numbers are the
    integers; literals with a fraction or an exponent are outside the model,
    and so are [NaN] and [Infinity], which [json.loads] also accepts.  A
    float [NaN] is not equal to itself under [==]; the properties that
    need a value to equal itself therefore assume it of that value.
    Dictionaries are association lists in insertion order, as CPython keeps
    them, read and written through [dict_get] and [dict_set]. *)

From stdpp Require Import base list strings numbers pretty.

Local Open Scope string_scope.
Local Open Scope list_scope.
Set Warnings "-register-all".

(** ** Values produced by [json.loads] *)

Inductive json : Type :=
| JNull
| JBool (b : bool)
| JInt (n : Z)
| JStr (s : string)
| JArr (items : list json)
| JObj (fields : list (string * json)).

Abbreviation dict := (list (string * json)).

(** [d.get(key)] without default: the first binding of [key]. *)
Fixpoint dict_get (key : string) (d : dict) : option json :=
  match d with
  | [] => None
  | (k, v) :: d' => if String.eqb k key then Some v else dict_get key d'
  end.

(** [d[key] = value]: overwrite in place, or add at the end. *)
Fixpoint dict_set (key : string) (value : json) (d : dict) : dict :=
  match d with
  | [] => [(key, value)]
  | (k, v) :: d' =>
      if String.eqb k key then (k, value) :: d'
      else (k, v) :: dict_set key value d'
  end.

(** [key in d]. *)
Definition dict_contains (key : string) (d : dict) : bool :=
  match dict_get key d with Some _ => true | None => false end.

(** [bool(v)], the test behind [if not v]. *)
Definition truthy (v : json) : bool :=
  match v with
  | JNull => false
  | JBool b => b
  | JInt n => negb (n =? 0)%Z
  | JStr s => negb (String.eqb s "")
  | JArr items => match items with [] => false | _ => true end
  | JObj fields => match fields with [] => false | _ => true end
  end.

(** [type(v).__name__], as it appears in the interpreter's messages. *)
Definition type_name (v : json) : string :=
  match v with
  | JNull => "NoneType"
  | JBool _ => "bool"
  | JInt _ => "int"
  | JStr _ => "str"
  | JArr _ => "list"
  | JObj _ => "dict"
  end.

(** Lists and dictionaries cannot be dictionary keys. *)
Definition hashable (v : json) : bool :=
  match v with
  | JArr _ | JObj _ => false
  | _ => true
  end.

Definition bool_to_Z (b : bool) : Z := if b then 1%Z else 0%Z.

(** Python's [a == b].  [bool] is a subclass of [int], so [True == 1] and
    [False == 0]; lists compare element by element; dictionaries compare as
    mappings, whatever the insertion order. *)
Fixpoint py_eq (a b : json) {struct a} : bool :=
  match a, b with
  | JNull, JNull => true
  | JBool x, JBool y => Bool.eqb x y
  | JBool x, JInt n => (bool_to_Z x =? n)%Z
  | JInt m, JBool y => (m =? bool_to_Z y)%Z
  | JInt m, JInt n => (m =? n)%Z
  | JStr s, JStr t => String.eqb s t
  | JArr xs, JArr ys =>
      (fix pairwise (xs ys : list json) : bool :=
         match xs, ys with
         | [], [] => true
         | x :: xs', y :: ys' => py_eq x y && pairwise xs' ys'
         | _, _ => false
         end) xs ys
  | JObj d, JObj e =>
      (length d =? length e)%nat &&
      (fix each (d : dict) : bool :=
         match d with
         | [] => true
         | (k, v) :: d' =>
             match dict_get k e with
             | Some w => py_eq v w
             | None => false
             end && each d'
         end) d
  | _, _ => false
  end.

(** Deep JSON equality in the strict sense: as [py_eq], but a boolean is
    never equal to a number. *)
Fixpoint json_equal (a b : json) {struct a} : bool :=
  match a, b with
  | JNull, JNull => true
  | JBool x, JBool y => Bool.eqb x y
  | JInt m, JInt n => (m =? n)%Z
  | JStr s, JStr t => String.eqb s t
  | JArr xs, JArr ys =>
      (fix pairwise (xs ys : list json) : bool :=
         match xs, ys with
         | [], [] => true
         | x :: xs', y :: ys' => json_equal x y && pairwise xs' ys'
         | _, _ => false
         end) xs ys
  | JObj d, JObj e =>
      (length d =? length e)%nat &&
      (fix each (d : dict) : bool :=
         match d with
         | [] => true
         | (k, v) :: d' =>
             match dict_get k e with
             | Some w => json_equal v w
             | None => false
             end && each d'
         end) d
  | _, _ => false
  end.

(** ** Exceptions of the interpreter that the handler can meet *)

Inductive pyexn : Type :=
| AttributeError (type attr : string)
| TypeError_unhashable (type : string)
| TypeError_not_iterable (type : string)
| KeyError (key : json).

(** What a computation leaves behind: a value, or a raised exception. *)
Inductive outcome (A : Type) : Type :=
| Ok (a : A)
| Raise (e : pyexn).
Arguments Ok {A} a.
Arguments Raise {A} e.

(** ** The store *)

(** The module-level [tables] dictionary, keys in insertion order, together
    with the number of UUIDs drawn from the system's entropy so far. *)
Record world : Type := World {
  tables : list (json * list dict);
  uuid_draws : nat
}.

(** The first entry whose key equals [key]. *)
Fixpoint tables_lookup (key : json) (t : list (json * list dict))
  : option (list dict) :=
  match t with
  | [] => None
  | (k, rows) :: t' => if py_eq k key then Some rows else tables_lookup key t'
  end.

(** [t[key] = rows] on a hashable key. *)
Fixpoint tables_store (key : json) (rows : list dict)
  (t : list (json * list dict)) : list (json * list dict) :=
  match t with
  | [] => [(key, rows)]
  | (k, old) :: t' =>
      if py_eq k key then (k, rows) :: t'
      else (k, old) :: tables_store key rows t'
  end.

(** State and exceptions: a computation reads and writes the [world] and
    either returns or raises; what was written before a raise stays. *)
Definition M (A : Type) : Type := world -> world * outcome A.

Definition ret {A} (a : A) : M A := fun w => (w, Ok a).
Definition raise {A} (e : pyexn) : M A := fun w => (w, Raise e).
Definition bind {A B} (m : M A) (f : A -> M B) : M B :=
  fun w =>
    match m w with
    | (w', Ok a) => f a w'
    | (w', Raise e) => (w', Raise e)
    end.
Definition lift {A} (o : outcome A) : M A := fun w => (w, o).

Notation "x <- m ;; k" := (bind m (fun x => k))
  (at level 100, m at next level, right associativity).
Notation "m ;;; k" := (bind m (fun _ => k))
  (at level 100, right associativity).

(** [key in tables]. *)
Definition tables_contains (key : json) : M bool :=
  fun w =>
    if hashable key
    then (w, Ok (match tables_lookup key (tables w) with
                 | Some _ => true
                 | None => false
                 end))
    else (w, Raise (TypeError_unhashable (type_name key))).

(** [tables[key]]. *)
Definition tables_getitem (key : json) : M (list dict) :=
  fun w =>
    if hashable key
    then match tables_lookup key (tables w) with
         | Some rows => (w, Ok rows)
         | None => (w, Raise (KeyError key))
         end
    else (w, Raise (TypeError_unhashable (type_name key))).

(** [tables[key] = rows], also the write-back of a list mutated in place. *)
Definition tables_setitem (key : json) (rows : list dict) : M unit :=
  fun w =>
    if hashable key
    then (World (tables_store key rows (tables w)) (uuid_draws w), Ok tt)
    else (w, Raise (TypeError_unhashable (type_name key))).

(** [obj.get(key, default)]: only dictionaries have a [get]. *)
Definition py_get (obj : json) (key : string) (default : json)
  : outcome json :=
  match obj with
  | JObj d => Ok (match dict_get key d with Some v => v | None => default end)
  | _ => Raise (AttributeError (type_name obj) "get")
  end.

(** [iter(v)]: a list yields its items, a string its characters, a
    dictionary its keys; nothing else is iterable. *)
Fixpoint chars (s : string) : list json :=
  match s with
  | EmptyString => []
  | String c s' => JStr (String c EmptyString) :: chars s'
  end.

Definition py_iter (v : json) : outcome (list json) :=
  match v with
  | JArr items => Ok items
  | JStr s => Ok (chars s)
  | JObj d => Ok (map (fun kv => JStr (fst kv)) d)
  | _ => Raise (TypeError_not_iterable (type_name v))
  end.

(** The response bodies. *)
Definition error_reply (message : string) : json :=
  JObj [("error", JStr message)].
Definition success_reply : json := JObj [("success", JBool true)].
Definition data_reply (results : list dict) : json :=
  JObj [("data", JArr (map JObj results))].
Definition ids_reply (inserted_ids : list json) : json :=
  JObj [("ids", JArr inserted_ids); ("success", JBool true)].
Definition tables_reply (names : list json) : json :=
  JObj [("tables", JArr names)].

(** The seed records. *)
Definition seed_users : list dict :=
  [ [("id", JStr "1"); ("name", JStr "John Doe");
     ("email", JStr "john@example.com")];
    [("id", JStr "2"); ("name", JStr "Jane Smith");
     ("email", JStr "jane@example.com")] ].
Definition seed_posts : list dict :=
  [ [("id", JStr "1"); ("title", JStr "First Post");
     ("content", JStr "Hello World"); ("user_id", JStr "1")];
    [("id", JStr "2"); ("title", JStr "Second Post");
     ("content", JStr "Another post"); ("user_id", JStr "2")] ].
Definition seed_comments : list dict :=
  [ [("id", JStr "1"); ("post_id", JStr "1"); ("user_id", JStr "2");
     ("content", JStr "Great post!")];
    [("id", JStr "2"); ("post_id", JStr "1"); ("user_id", JStr "1");
     ("content", JStr "Thanks!")] ].

Definition seed_tables : list (json * list dict) :=
  [ (JStr "users", seed_users);
    (JStr "posts", seed_posts);
    (JStr "comments", seed_comments) ].

Definition seed : world := World seed_tables 0.

(** ** The request handler *)

(** What the handler sees of the request body: nothing; bytes on which
    [json.loads] raises [JSONDecodeError]; bytes on which it raises another
    exception, as [UnicodeDecodeError] on bytes that are not UTF-8, with
    the text of that exception; or the value it returns. *)
Inductive request_body : Type :=
| EmptyBody
| InvalidJson
| Undecodable (message : string)
| Parsed (v : json).

(** The body is empty or [json.loads] returns. *)
Definition parses (body : request_body) : bool :=
  match body with
  | EmptyBody | Parsed _ => true
  | InvalidJson | Undecodable _ => false
  end.

(** [record.get("id")]. *)
Definition record_id_of (record : dict) : json :=
  match dict_get "id" record with Some v => v | None => JNull end.

(** The inner loop of query: every filter pair must be met; the first
    miss ends the loop. *)
Fixpoint matches (filters item : dict) : bool :=
  match filters with
  | [] => true
  | (key, value) :: filters' =>
      match dict_get key item with
      | None => false
      | Some x => if py_eq x value then matches filters' item else false
      end
  end.

(** The outer loop of query; [filters.items()] is evaluated once per item,
    so a non-dictionary [filters] raises only on a non-empty table. *)
Fixpoint filter_rows (filters : json) (results : list dict)
  : outcome (list dict) :=
  match results with
  | [] => Ok []
  | item :: rest =>
      match filters with
      | JObj f =>
          match filter_rows filters rest with
          | Ok kept => Ok (if matches f item then item :: kept else kept)
          | Raise e => Raise e
          end
      | _ => Raise (AttributeError (type_name filters) "items")
      end
  end.

(** [for i, record in enumerate(rows): if record.get("id") == record_id],
    from index [i] on: the index of the first hit, or [None] when the loop
    runs into its [else]. *)
Fixpoint find_record (record_id : json) (i : nat) (rows : list dict)
  : option nat :=
  match rows with
  | [] => None
  | record :: rest =>
      if py_eq (record_id_of record) record_id then Some i
      else find_record record_id (S i) rest
  end.

(** [for key, value in updates.items(): tables[table_name][i][key] = value].
    The index comes from [find_record], so it is in range. *)
Fixpoint apply_updates (table_name : json) (i : nat) (updates : dict)
  : M unit :=
  match updates with
  | [] => ret tt
  | (key, value) :: rest =>
      rows <- tables_getitem table_name ;;
      tables_setitem table_name (alter (dict_set key value) i rows) ;;;
      apply_updates table_name i rest
  end.

(** ** Requests as the operations of the store *)

Definition query_call (T : string) (F : dict) : request_body :=
  Parsed (JObj [("table", JStr T); ("filters", JObj F)]).
Definition insert_call (T : string) (R : list dict) : request_body :=
  Parsed (JObj [("table", JStr T); ("records", JArr (map JObj R))]).
Definition update_call (T : string) (i : json) (U : dict) : request_body :=
  Parsed (JObj [("table", JStr T); ("id", i); ("updates", JObj U)]).
Definition delete_call (T : string) (i : json) : request_body :=
  Parsed (JObj [("table", JStr T); ("id", i)]).

(** The five function names of the [if]/[elif] chain. *)
Definition supported : list string :=
  ["query"; "insert"; "update"; "delete"; "list_tables"].

(** ** Vocabulary of the properties *)

(** Record [r] at index [n] is the first of [rows] whose id equals [i]. *)
Definition first_match (i : json) (rows : list dict) (n : nat) (r : dict)
  : Prop :=
  rows !! n = Some r /\
  py_eq (record_id_of r) i = true /\
  forall j r', j < n -> rows !! j = Some r' ->
    py_eq (record_id_of r') i = false.

(** No record of [rows] has an id equal to [i]. *)
Definition no_match (i : json) (rows : list dict) : Prop :=
  Forall (fun r => py_eq (record_id_of r) i = false) rows.

(** All the pairs of [updates] written into [record], in order. *)
Definition merged (updates record : dict) : dict :=
  foldl (fun r kv => dict_set (fst kv) (snd kv) r) record updates.

(** The record as insert appends it when its UUID is the [n]-th draw. *)
Definition assigned_id (uuid4 : nat -> string) (n : nat) (r : dict) : json :=
  match dict_get "id" r with Some v => v | None => JStr (uuid4 n) end.
Definition stamped (uuid4 : nat -> string) (n : nat) (r : dict) : dict :=
  dict_set "id" (assigned_id uuid4 n r) r.

(** Every record carries an [id] key. *)
Definition has_id (r : dict) : Prop := dict_contains "id" r = true.
Definition rows_ok (t : list (json * list dict)) : Prop :=
  Forall (fun e => Forall has_id (snd e)) t.

(** Every table name passed the [if not table_name] test and is hashable. *)
Definition keys_ok (t : list (json * list dict)) : Prop :=
  Forall (fun k => truthy k = true /\ hashable k = true) t.*1.

(** What a request may do to the world: draw UUIDs, add table names after
    the existing ones, and keep the two invariants. *)
Definition extends (w w' : world) : Prop :=
  uuid_draws w <= uuid_draws w' /\
  (tables w).*1 `prefix_of` (tables w').*1 /\
  (rows_ok (tables w) -> rows_ok (tables w')) /\
  (keys_ok (tables w) -> keys_ok (tables w')).

(** A computation every run of which extends the world it starts from. *)
Definition steady {A} (m : M A) : Prop := forall w, extends w (fst (m w)).

(** Parameter [name] of the mapping [P] is present and truthy. *)
Definition given (P : dict) (name : string) : bool :=
  match dict_get name P with Some v => truthy v | None => false end.

(** The filter condition read as the strict deep equality of JSON. *)
Definition strict_match (F item : dict) : Prop :=
  forall key value, In (key, value) F ->
    exists x, dict_get key item = Some x /\ json_equal x value = true.

(** The filter condition with Python's [==]. *)
Definition loose_match (F item : dict) : Prop :=
  forall key value, In (key, value) F ->
    exists x, dict_get key item = Some x /\ py_eq x value = true.

(** ** The other two endpoints *)

(** [root()]: the descriptor of the server. *)
Definition root : json :=
  JObj [("name", JStr "Supabase MCP Server");
        ("version", JStr "1.0.0");
        ("description", JStr "MCP server for supabase operations");
        ("functions",
         JArr [JStr "query"; JStr "insert"; JStr "update"; JStr "delete";
               JStr "list_tables"])].

(** [health_check()]. *)
Definition health_check : json := JObj [("status", JStr "healthy")].

(** ** Vocabulary of the further properties *)

(** Every run of [m] leaves a world related by [R] to the one it starts
    from, whether it returns or raises. *)
Definition respects {A} (R : world -> world -> Prop) (m : M A) : Prop :=
  forall w, R w (fst (m w)).

(** No UUID was drawn between the two worlds. *)
Definition same_draws (w w' : world) : Prop := uuid_draws w' = uuid_draws w.

(** When [m] returns, what it returns satisfies [Q]. *)
Definition answers {A} (Q : A -> Prop) (m : M A) : Prop :=
  forall w, match snd (m w) with Ok a => Q a | Raise _ => True end.

(** The reply is an error object. *)
Definition is_error (reply : json) : Prop :=
  exists message, reply = error_reply message.

(** The successful replies of each function. *)
Definition success_shape (function_name : string) (reply : json) : Prop :=
  (function_name = "query" /\ exists results, reply = data_reply results) \/
  (function_name = "insert" /\ exists ids, reply = ids_reply ids) \/
  (function_name = "update" /\ reply = success_reply) \/
  (function_name = "delete" /\ reply = success_reply) \/
  (function_name = "list_tables" /\ exists names, reply = tables_reply names).

(** The value has a [get], as only a dictionary does. *)
Definition is_record (v : json) : bool :=
  match v with JObj _ => true | _ => false end.

(** The request with parameters [P]. *)
Definition call (P : dict) : request_body := Parsed (JObj P).

Section Server.

(** [str(uuid.uuid4())] at the n-th draw of the process. *)
Variable uuid4 : nat -> string.

(** [repr] of a parsed value, as f-strings print everything but strings. *)
Variable py_repr : json -> string.

(** [str(v)], what [f"{v}"] prints. *)
Definition py_str (v : json) : string :=
  match v with
  | JStr s => s
  | _ => py_repr v
  end.

(** [str(e)]. *)
Definition exn_str (e : pyexn) : string :=
  match e with
  | AttributeError type attr =>
      "'" +:+ type +:+ "' object has no attribute '" +:+ attr +:+ "'"
  | TypeError_unhashable type => "unhashable type: '" +:+ type +:+ "'"
  | TypeError_not_iterable type => "'" +:+ type +:+ "' object is not iterable"
  | KeyError key => py_repr key
  end.

Definition draw_uuid : M string :=
  fun w => (World (tables w) (S (uuid_draws w)), Ok (uuid4 (uuid_draws w))).

(** The loop of insert.  The default of [record.get] is an argument, so a
    UUID is drawn for every record, with or without an [id]. *)
Fixpoint insert_records (table_name : json) (records : list json)
  : M (list json) :=
  match records with
  | [] => ret []
  | record :: rest =>
      match record with
      | JObj d =>
          fresh <- draw_uuid ;;
          let record_id :=
            match dict_get "id" d with Some v => v | None => JStr fresh end in
          rows <- tables_getitem table_name ;;
          tables_setitem table_name (rows ++ [dict_set "id" record_id d]) ;;;
          inserted_ids <- insert_records table_name rest ;;
          ret (record_id :: inserted_ids)
      | _ => raise (AttributeError (type_name record) "get")
      end
  end.

Definition handle_query (parameters : json) : M json :=
  table_name <- lift (py_get parameters "table" JNull) ;;
  filters <- lift (py_get parameters "filters" (JObj [])) ;;
  if negb (truthy table_name)
  then ret (error_reply "table parameter is required")
  else
    present <- tables_contains table_name ;;
    if negb present
    then ret (error_reply ("Table " +:+ py_str table_name +:+ " not found"))
    else
      results <- tables_getitem table_name ;;
      results <- (if truthy filters
                  then lift (filter_rows filters results)
                  else ret results) ;;
      ret (data_reply results).

Definition handle_insert (parameters : json) : M json :=
  table_name <- lift (py_get parameters "table" JNull) ;;
  records <- lift (py_get parameters "records" (JArr [])) ;;
  if negb (truthy table_name)
  then ret (error_reply "table parameter is required")
  else if negb (truthy records)
  then ret (error_reply "records parameter is required")
  else
    present <- tables_contains table_name ;;
    (if negb present then tables_setitem table_name [] else ret tt) ;;;
    items <- lift (py_iter records) ;;
    inserted_ids <- insert_records table_name items ;;
    ret (ids_reply inserted_ids).

Definition handle_update (parameters : json) : M json :=
  table_name <- lift (py_get parameters "table" JNull) ;;
  record_id <- lift (py_get parameters "id" JNull) ;;
  updates <- lift (py_get parameters "updates" (JObj [])) ;;
  if negb (truthy table_name)
  then ret (error_reply "table parameter is required")
  else if negb (truthy record_id)
  then ret (error_reply "id parameter is required")
  else if negb (truthy updates)
  then ret (error_reply "updates parameter is required")
  else
    present <- tables_contains table_name ;;
    if negb present
    then ret (error_reply ("Table " +:+ py_str table_name +:+ " not found"))
    else
      rows <- tables_getitem table_name ;;
      match find_record record_id 0 rows with
      | Some i =>
          match updates with
          | JObj u => apply_updates table_name i u
          | _ => raise (AttributeError (type_name updates) "items")
          end ;;;
          ret success_reply
      | None =>
          ret (error_reply ("Record with id " +:+ py_str record_id
                            +:+ " not found in table " +:+ py_str table_name))
      end.

Definition handle_delete (parameters : json) : M json :=
  table_name <- lift (py_get parameters "table" JNull) ;;
  record_id <- lift (py_get parameters "id" JNull) ;;
  if negb (truthy table_name)
  then ret (error_reply "table parameter is required")
  else if negb (truthy record_id)
  then ret (error_reply "id parameter is required")
  else
    present <- tables_contains table_name ;;
    if negb present
    then ret (error_reply ("Table " +:+ py_str table_name +:+ " not found"))
    else
      rows <- tables_getitem table_name ;;
      match find_record record_id 0 rows with
      | Some i =>
          rows' <- tables_getitem table_name ;;
          tables_setitem table_name (delete i rows') ;;;
          ret success_reply
      | None =>
          ret (error_reply ("Record with id " +:+ py_str record_id
                            +:+ " not found in table " +:+ py_str table_name))
      end.

Definition handle_list_tables : M json :=
  fun w => (w, Ok (tables_reply (tables w).*1)).

(** The [if]/[elif] chain on the function name. *)
Definition dispatch (function_name : string) (parameters : json) : M json :=
  if String.eqb function_name "query" then handle_query parameters
  else if String.eqb function_name "insert" then handle_insert parameters
  else if String.eqb function_name "update" then handle_update parameters
  else if String.eqb function_name "delete" then handle_delete parameters
  else if String.eqb function_name "list_tables" then handle_list_tables
  else ret (error_reply ("Function " +:+ function_name +:+ " not supported")).

(** The handler with its [try]: the body is parsed first, an empty body
    standing for [{}]; [JSONDecodeError] is answered by its own [except],
    every other exception by the last one, with [str(e)], and the store
    keeps what was written before the raise. *)
Definition handle_mcp_request (function_name : string)
  (body : request_body) (w : world) : world * json :=
  match body with
  | InvalidJson => (w, error_reply "Invalid JSON in request body")
  | Undecodable message => (w, error_reply message)
  | EmptyBody | Parsed _ =>
      let parameters :=
        match body with Parsed v => v | _ => JObj [] end in
      match dispatch function_name parameters w with
      | (w', Ok result) => (w', result)
      | (w', Raise e) => (w', error_reply (exn_str e))
      end
  end.

(** Worlds the process can be in after some requests, from [w] on. *)
Inductive reachable_from (w : world) : world -> Prop :=
| reach_here : reachable_from w w
| reach_step (w' : world) (function_name : string) (body : request_body) :
    reachable_from w w' ->
    reachable_from w (fst (handle_mcp_request function_name body w')).

Definition reachable : world -> Prop := reachable_from seed.

(** The world after a sequence of requests. *)
Fixpoint run (requests : list (string * request_body)) (w : world)
  : world :=
  match requests with
  | [] => w
  | (function_name, body) :: rest =>
      run rest (fst (handle_mcp_request function_name body w))
  end.

End Server.

(** ** Stand-ins for closed examples *)

(** A generator that never repeats itself. *)
Definition sample_uuid4 (n : nat) : string := "uuid-" +:+ pretty n.

(** A printer: exact on [None], booleans and integers; strings are quoted
    without escapes and containers are elided. *)
Definition sample_repr (v : json) : string :=
  match v with
  | JNull => "None"
  | JBool true => "True"
  | JBool false => "False"
  | JInt n => pretty n
  | JStr s => "'" +:+ s +:+ "'"
  | JArr _ => "[...]"
  | JObj _ => "{...}"
  end.

(** The handler on the stand-ins. *)
Definition sample_handle : string -> request_body -> world -> world * json :=
  handle_mcp_request sample_uuid4 sample_repr.
Definition sample_run : list (string * request_body) -> world -> world :=
  run sample_uuid4 sample_repr.

(** * Properties *)

Section Properties.

Variable uuid4 : nat -> string.
Variable py_repr : json -> string.

Local Abbreviation handle := (handle_mcp_request uuid4 py_repr).
Local Abbreviation reachable_from := (reachable_from uuid4 py_repr).
Local Abbreviation reachable := (reachable uuid4 py_repr).

(** *** Dictionaries *)

Lemma dict_get_set_eq (key : string) (value : json) (d : dict) :
  dict_get key (dict_set key value d) = Some value.
Proof.
  induction d as [|[k v] d IH]; simpl.
  - by rewrite String.eqb_refl.
  - destruct (String.eqb k key) eqn:E; simpl; rewrite E; [done | exact IH].
Qed.

Lemma dict_get_set_ne (key key' : string) (value : json) (d : dict) :
  key' <> key -> dict_get key' (dict_set key value d) = dict_get key' d.
Proof.
  intros Hne. induction d as [|[k v] d IH]; simpl.
  - destruct (String.eqb_spec key key'); congruence.
  - destruct (String.eqb_spec k key) as [->|Hk]; simpl.
    + destruct (String.eqb_spec key key'); congruence.
    + destruct (String.eqb k key'); [done | exact IH].
Qed.

Lemma dict_contains_set (key key' : string) (value : json) (d : dict) :
  dict_contains key' d = true ->
  dict_contains key' (dict_set key value d) = true.
Proof.
  unfold dict_contains. destruct (decide (key' = key)) as [->|Hne].
  - by rewrite dict_get_set_eq.
  - by rewrite dict_get_set_ne.
Qed.

Lemma has_id_set_id (value : json) (d : dict) :
  has_id (dict_set "id" value d).
Proof. unfold has_id, dict_contains. by rewrite dict_get_set_eq. Qed.

Lemma has_id_merged (updates record : dict) :
  has_id record -> has_id (merged updates record).
Proof.
  unfold merged. revert record.
  induction updates as [|[k v] u IH]; intros record H; simpl; [done|].
  apply IH. by apply dict_contains_set.
Qed.

Lemma dict_get_merged_other (updates record : dict) (key : string) :
  key ∉ updates.*1 ->
  dict_get key (merged updates record) = dict_get key record.
Proof.
  unfold merged. revert record.
  induction updates as [|[k v] u IH]; intros record H; simpl; [done|].
  simpl in H. apply not_elem_of_cons in H as [Hk Hu].
  rewrite IH by done. by apply dict_get_set_ne.
Qed.

Lemma dict_get_merged_in (updates record : dict) (key : string)
  (value : json) :
  NoDup updates.*1 -> (key, value) ∈ updates ->
  dict_get key (merged updates record) = Some value.
Proof.
  unfold merged. revert record.
  induction updates as [|[k v] u IH]; intros record Hnd Hin; simpl.
  - by apply elem_of_nil in Hin.
  - simpl in Hnd. apply NoDup_cons in Hnd as [Hk Hnd].
    apply elem_of_cons in Hin as [Heq|Hin].
    + injection Heq as -> ->.
      fold (merged u (dict_set k v record)).
      rewrite dict_get_merged_other by done. apply dict_get_set_eq.
    + by apply IH.
Qed.

Lemma dict_set_same (key : string) (value : json) (d : dict) :
  dict_get key d = Some value -> dict_set key value d = d.
Proof.
  induction d as [|[k v] d IH]; simpl; [done|].
  destruct (String.eqb k key); [by intros [= ->] | intros H; by rewrite IH].
Qed.

Lemma dict_set_fresh (key : string) (value : json) (d : dict) :
  dict_get key d = None -> dict_set key value d = d ++ [(key, value)].
Proof.
  induction d as [|[k v] d IH]; simpl; [done|].
  destruct (String.eqb k key); [done | intros H; by rewrite IH].
Qed.

(** *** Equality on table names *)

Lemma py_eq_str_r (k : json) (s : string) :
  py_eq k (JStr s) = true -> k = JStr s.
Proof.
  destruct k; simpl; try done.
  intros H. apply String.eqb_eq in H. by subst.
Qed.

Lemma py_eq_str_l (k : json) (s : string) :
  py_eq (JStr s) k = true -> k = JStr s.
Proof.
  destruct k; simpl; try done.
  intros H. apply String.eqb_eq in H. by subst.
Qed.

Lemma py_eq_refl_hashable (k : json) : hashable k = true -> py_eq k k = true.
Proof.
  destruct k as [|b|n|s|?|?]; simpl; try done; intros _.
  - by destruct b.
  - apply Z.eqb_refl.
  - apply String.eqb_refl.
Qed.

Lemma truthy_str (s : string) : truthy (JStr s) = true <-> s <> "".
Proof.
  simpl. destruct (String.eqb_spec s ""); simpl; split; congruence.
Qed.

(** Strict equality is finer than Python's: what it equates, [==] equates. *)
Lemma json_equal_py_eq :
  forall a b : json, json_equal a b = true -> py_eq a b = true.
Proof.
  fix rec 1. intros a b.
  destruct a as [|x|m|s|xs|d], b as [|y|n|t|ys|e]; cbn [json_equal py_eq];
    try done.
  - revert ys. induction xs as [|x xs IH]; intros [|y ys]; try done.
    intros H. apply andb_true_iff in H as [H1 H2].
    apply andb_true_iff. split; [by apply rec | by apply IH].
  - intros H. apply andb_true_iff in H as [H1 H2].
    apply andb_true_iff. split; [done|]. clear H1.
    induction d as [|[k v] d IH]; [done|].
    apply andb_true_iff in H2 as [H2 H3].
    apply andb_true_iff. split; [|by apply IH].
    destruct (dict_get k e) as [w|]; [|done]. by apply rec.
Qed.

Lemma strict_match_loose (F item : dict) :
  strict_match F item -> loose_match F item.
Proof.
  intros H key value Hin. destruct (H key value Hin) as (x & Hx & Hv).
  exists x. split; [done | by apply json_equal_py_eq].
Qed.

(** *** The [tables] dictionary *)

Lemma lookup_store_hit (key : json) (rows rows' : list dict)
  (t : list (json * list dict)) :
  tables_lookup key t = Some rows ->
  tables_lookup key (tables_store key rows' t) = Some rows'.
Proof.
  induction t as [|[k old] t IH]; simpl; [done|].
  destruct (py_eq k key) eqn:E; simpl; rewrite E; [done | exact IH].
Qed.

Lemma lookup_store_new (key : json) (rows' : list dict)
  (t : list (json * list dict)) :
  hashable key = true ->
  tables_lookup key (tables_store key rows' t) = Some rows'.
Proof.
  intros Hh. induction t as [|[k old] t IH]; simpl.
  - by rewrite py_eq_refl_hashable.
  - destruct (py_eq k key) eqn:E; simpl; rewrite E; [done | exact IH].
Qed.

Lemma store_same (key : json) (rows : list dict)
  (t : list (json * list dict)) :
  tables_lookup key t = Some rows -> tables_store key rows t = t.
Proof.
  induction t as [|[k old] t IH]; simpl; [done|].
  destruct (py_eq k key) eqn:E.
  - by intros [= ->].
  - intros H. by rewrite IH.
Qed.

Lemma store_store (key : json) (r r1 r2 : list dict)
  (t : list (json * list dict)) :
  tables_lookup key t = Some r ->
  tables_store key r2 (tables_store key r1 t) = tables_store key r2 t.
Proof.
  induction t as [|[k old] t IH]; simpl; [done|].
  destruct (py_eq k key) eqn:E; simpl; rewrite E; [done|].
  intros H. by rewrite IH.
Qed.

Lemma lookup_store_other (s : string) (key : json) (rows' : list dict)
  (t : list (json * list dict)) :
  key <> JStr s ->
  tables_lookup key (tables_store (JStr s) rows' t) = tables_lookup key t.
Proof.
  intros Hne.
  induction t as [|[k old] t IH]; cbn [tables_lookup tables_store].
  - destruct (py_eq (JStr s) key) eqn:E; [|done].
    apply py_eq_str_l in E. congruence.
  - destruct (py_eq k (JStr s)) eqn:E; cbn [tables_lookup].
    + apply py_eq_str_r in E. subst k.
      destruct (py_eq (JStr s) key) eqn:E'; [|done].
      apply py_eq_str_l in E'. congruence.
    + destruct (py_eq k key); [done | exact IH].
Qed.

Lemma keys_store_hit (key : json) (rows rows' : list dict)
  (t : list (json * list dict)) :
  tables_lookup key t = Some rows ->
  (tables_store key rows' t).*1 = t.*1.
Proof.
  induction t as [|[k old] t IH]; cbn [tables_lookup tables_store]; [done|].
  destruct (py_eq k key) eqn:E; rewrite !fmap_cons; [done|].
  intros H. f_equal. by apply IH.
Qed.

Lemma keys_store_new (key : json) (rows' : list dict)
  (t : list (json * list dict)) :
  tables_lookup key t = None ->
  (tables_store key rows' t).*1 = t.*1 ++ [key].
Proof.
  induction t as [|[k old] t IH]; cbn [tables_lookup tables_store]; [done|].
  destruct (py_eq k key) eqn:E; rewrite !fmap_cons; [done|].
  intros H. cbn [app]. f_equal. by apply IH.
Qed.

Lemma keys_store_prefix (key : json) (rows' : list dict)
  (t : list (json * list dict)) :
  t.*1 `prefix_of` (tables_store key rows' t).*1.
Proof.
  destruct (tables_lookup key t) as [rows|] eqn:E.
  - by rewrite (keys_store_hit _ _ _ _ E).
  - rewrite (keys_store_new _ _ _ E). by apply prefix_app_r.
Qed.

Lemma keys_ok_store (key : json) (rows' : list dict)
  (t : list (json * list dict)) :
  truthy key = true -> hashable key = true ->
  keys_ok t -> keys_ok (tables_store key rows' t).
Proof.
  intros Ht Hh Hk. unfold keys_ok in *.
  destruct (tables_lookup key t) as [rows|] eqn:E.
  - by rewrite (keys_store_hit _ _ _ _ E).
  - rewrite (keys_store_new _ _ _ E). apply Forall_app. split; [done|].
    by apply Forall_singleton.
Qed.

Lemma rows_ok_store (key : json) (rows' : list dict)
  (t : list (json * list dict)) :
  Forall has_id rows' -> rows_ok t -> rows_ok (tables_store key rows' t).
Proof.
  intros Hr. unfold rows_ok.
  induction t as [|[k old] t IH]; cbn [tables_store]; intros Ht.
  - by apply Forall_singleton.
  - apply Forall_cons in Ht as [Hold Ht].
    destruct (py_eq k key); apply Forall_cons; split; auto.
Qed.

Lemma rows_ok_lookup (key : json) (rows : list dict)
  (t : list (json * list dict)) :
  rows_ok t -> tables_lookup key t = Some rows -> Forall has_id rows.
Proof.
  unfold rows_ok.
  induction t as [|[k old] t IH]; cbn [tables_lookup]; [done|].
  intros Ht. apply Forall_cons in Ht as [Hold Ht].
  destruct (py_eq k key); [by intros [= <-] | by apply IH].
Qed.

Lemma lookup_keys_ok (s : string) (rows : list dict)
  (t : list (json * list dict)) :
  keys_ok t -> tables_lookup (JStr s) t = Some rows -> s <> "".
Proof.
  unfold keys_ok.
  induction t as [|[k old] t IH]; cbn [tables_lookup]; [done|].
  rewrite fmap_cons. intros Ht. apply Forall_cons in Ht as [[Hk _] Ht].
  destruct (py_eq k (JStr s)) eqn:E; [|by apply IH].
  intros _. apply py_eq_str_r in E. subst k. by apply truthy_str.
Qed.

(** *** The loops *)

Lemma matches_spec (F item : dict) :
  matches F item = true <-> loose_match F item.
Proof.
  unfold loose_match. induction F as [|[k v] F IH]; simpl.
  - split; [intros _ ? ? [] | done].
  - destruct (dict_get k item) as [x|] eqn:Hx.
    + destruct (py_eq x v) eqn:Hv.
      * rewrite IH. split.
        -- intros H key value [[= <- <-]|Hin]; eauto.
        -- intros H key value Hin. apply H. by right.
      * split; [done|]. intros H.
        destruct (H k v) as (y & Hy & Hyv); [by left|]. congruence.
    + split; [done|]. intros H.
      destruct (H k v) as (y & Hy & Hyv); [by left|]. congruence.
Qed.

Lemma filter_rows_obj (F : dict) (rows : list dict) :
  filter_rows (JObj F) rows = Ok (List.filter (matches F) rows).
Proof.
  induction rows as [|item rest IH]; simpl; [done|]. by rewrite IH.
Qed.

Lemma filter_no_filters (rows : list dict) :
  List.filter (matches []) rows = rows.
Proof. induction rows as [|r rows IH]; simpl; [done | by f_equal]. Qed.

Lemma find_record_some (i : json) (rows : list dict) (k n : nat) :
  find_record i k rows = Some n <->
  exists m r, n = k + m /\ first_match i rows m r.
Proof.
  unfold first_match. revert k n.
  induction rows as [|record rest IH]; intros k n; simpl.
  - split; [done|]. by intros (m & r & _ & H & _).
  - destruct (py_eq (record_id_of record) i) eqn:E.
    + split.
      * intros [= <-]. exists 0, record. repeat split; [lia|done|lia].
      * intros (m & r & -> & Hm & Hr & Hfirst). destruct m as [|m].
        -- f_equal. lia.
        -- specialize (Hfirst 0 record). simpl in Hfirst.
           rewrite Hfirst in E; [done | lia | done].
    + rewrite IH. split.
      * intros (m & r & -> & Hm & Hr & Hfirst).
        exists (S m), r. repeat split; [lia|done|done|].
        intros [|j] r' Hj; simpl; [by intros [= <-]|].
        apply Hfirst. lia.
      * intros (m & r & -> & Hm & Hr & Hfirst). destruct m as [|m].
        -- simpl in Hm. injection Hm as <-. congruence.
        -- exists m, r. repeat split; [lia|done|done|].
           intros j r' Hj Hl. apply (Hfirst (S j)); [lia | done].
Qed.

Lemma find_record_first (i : json) (rows : list dict) (n : nat) (r : dict) :
  first_match i rows n r -> find_record i 0 rows = Some n.
Proof. intros H. apply find_record_some. by exists n, r. Qed.

Lemma find_record_none (i : json) (rows : list dict) (k : nat) :
  find_record i k rows = None <-> no_match i rows.
Proof.
  unfold no_match. revert k.
  induction rows as [|record rest IH]; intros k; simpl.
  - split; [by constructor | done].
  - rewrite Forall_cons.
    destruct (py_eq (record_id_of record) i) eqn:E.
    + split; [done | by intros [? _]].
    + rewrite IH. split; [done | by intros [_ ?]].
Qed.

Lemma world_eta (w : world) : World (tables w) (uuid_draws w) = w.
Proof. by destruct w. Qed.

Lemma apply_updates_run (key : json) (n : nat) (u : dict) (w : world)
  (rows : list dict) :
  hashable key = true ->
  tables_lookup key (tables w) = Some rows ->
  apply_updates key n u w =
    (World (tables_store key (alter (merged u) n rows) (tables w))
           (uuid_draws w), Ok tt).
Proof.
  intros Hh. revert w rows.
  induction u as [|[k v] u IH]; intros w rows Hrows.
  - cbn [apply_updates]. unfold ret, merged. cbn [foldl].
    rewrite list_alter_id by done.
    by rewrite (store_same _ _ _ Hrows), world_eta.
  - cbn [apply_updates]. unfold bind, tables_getitem, tables_setitem.
    rewrite Hh, Hrows.
    rewrite (IH _ (alter (dict_set k v) n rows))
      by (cbn [tables]; by eapply lookup_store_hit).
    cbn [tables uuid_draws].
    rewrite (store_store _ _ _ _ _ Hrows).
    rewrite list_alter_alter_eq. reflexivity.
Qed.

Lemma insert_records_run (key : json) (R : list dict) (w : world)
  (rows : list dict) :
  hashable key = true ->
  tables_lookup key (tables w) = Some rows ->
  insert_records uuid4 key (map JObj R) w =
    (World (tables_store key
              (rows ++ imap (fun j => stamped uuid4 (uuid_draws w + j)) R)
              (tables w))
           (uuid_draws w + length R),
     Ok (imap (fun j => assigned_id uuid4 (uuid_draws w + j)) R)).
Proof.
  intros Hh. revert w rows.
  induction R as [|r R IH]; intros w rows Hrows.
  - cbn [map insert_records imap length]. unfold ret.
    rewrite app_nil_r, Nat.add_0_r.
    by rewrite (store_same _ _ _ Hrows), world_eta.
  - cbn [map insert_records].
    unfold bind at 1. unfold draw_uuid.
    unfold bind at 1. unfold tables_getitem. cbn [tables uuid_draws].
    rewrite Hh, Hrows.
    unfold bind at 1. unfold tables_setitem. cbn [tables uuid_draws].
    rewrite Hh. unfold bind at 1.
    rewrite (IH _ (rows ++ [stamped uuid4 (uuid_draws w) r]))
      by (cbn [tables]; by eapply lookup_store_hit).
    cbn [tables uuid_draws]. unfold ret.
    rewrite (store_store _ _ _ _ _ Hrows).
    rewrite !imap_cons, Nat.add_0_r. cbn [length].
    rewrite <- app_assoc. cbn [app].
    replace (uuid_draws w + S (length R)) with (S (uuid_draws w) + length R)
      by lia.
    rewrite (imap_ext ((fun j => stamped uuid4 (uuid_draws w + j)) ∘ S)
               (fun j => stamped uuid4 (S (uuid_draws w) + j)))
      by (intros j x _; simpl; f_equal; lia).
    rewrite (imap_ext ((fun j => assigned_id uuid4 (uuid_draws w + j)) ∘ S)
               (fun j => assigned_id uuid4 (S (uuid_draws w) + j)))
      by (intros j x _; simpl; f_equal; lia).
    reflexivity.
Qed.

(** *** Every request extends the world *)

Lemma extends_refl (w : world) : extends w w.
Proof. unfold extends. split_and!; auto. Qed.

Lemma extends_trans (w1 w2 w3 : world) :
  extends w1 w2 -> extends w2 w3 -> extends w1 w3.
Proof.
  intros (Hd & Hk & Hr & Ho) (Hd' & Hk' & Hr' & Ho').
  split_and!; [lia | by etrans | auto | auto].
Qed.

Lemma steady_ret {A} (a : A) : steady (ret a).
Proof. intros w. apply extends_refl. Qed.

Lemma steady_raise {A} (e : pyexn) : steady (raise (A:=A) e).
Proof. intros w. apply extends_refl. Qed.

Lemma steady_lift {A} (o : outcome A) : steady (lift o).
Proof. intros w. apply extends_refl. Qed.

Lemma steady_bind {A B} (m : M A) (f : A -> M B) :
  steady m -> (forall a, steady (f a)) -> steady (bind m f).
Proof.
  intros Hm Hf w. unfold bind. specialize (Hm w).
  destruct (m w) as [w' [a|e]]; simpl in *; [|done].
  eapply extends_trans; [done | apply Hf].
Qed.

Lemma steady_contains (key : json) : steady (tables_contains key).
Proof.
  intros w. unfold tables_contains.
  destruct (hashable key); apply extends_refl.
Qed.

Lemma steady_getitem (key : json) : steady (tables_getitem key).
Proof.
  intros w. unfold tables_getitem.
  destruct (hashable key); [|apply extends_refl].
  destruct (tables_lookup key (tables w)); apply extends_refl.
Qed.

Lemma steady_draw : steady (draw_uuid uuid4).
Proof.
  intros w. unfold draw_uuid, extends. simpl. split_and!; auto.
Qed.

Lemma steady_create (key : json) :
  truthy key = true -> steady (tables_setitem key []).
Proof.
  intros Ht w. unfold tables_setitem.
  destruct (hashable key) eqn:Hh; [|apply extends_refl].
  unfold extends. simpl. split_and!.
  - done.
  - apply keys_store_prefix.
  - by apply rows_ok_store.
  - by apply keys_ok_store.
Qed.

Lemma steady_modify {B} (key : json) (f : list dict -> list dict)
  (k : M B) :
  (forall rows, Forall has_id rows -> Forall has_id (f rows)) ->
  steady k ->
  steady (rows <- tables_getitem key ;; tables_setitem key (f rows) ;;; k).
Proof.
  intros Hf Hk w. unfold bind at 1. unfold tables_getitem.
  destruct (hashable key) eqn:Hh; [|apply extends_refl].
  destruct (tables_lookup key (tables w)) as [rows|] eqn:Hrows;
    [|apply extends_refl].
  unfold bind, tables_setitem. rewrite Hh.
  eapply extends_trans; [|apply Hk].
  unfold extends. simpl. split_and!.
  - done.
  - by rewrite (keys_store_hit _ _ _ _ Hrows).
  - intros Hok. apply rows_ok_store; [|done].
    apply Hf. by eapply rows_ok_lookup.
  - unfold keys_ok. by rewrite (keys_store_hit _ _ _ _ Hrows).
Qed.

Ltac steady_step :=
  lazymatch goal with
  | |- steady (bind (tables_getitem _)
                 (fun _ => bind (tables_setitem _ _) _)) =>
      apply steady_modify
  | |- steady (bind _ _) => apply steady_bind; [|intros ?]
  | |- steady (ret _) => apply steady_ret
  | |- steady (raise _) => apply steady_raise
  | |- steady (lift _) => apply steady_lift
  | |- steady (tables_contains _) => apply steady_contains
  | |- steady (tables_getitem _) => apply steady_getitem
  | |- steady (draw_uuid _) => apply steady_draw
  | |- steady (if ?b then _ else _) => destruct b eqn:?
  | |- steady (match ?x with _ => _ end) => destruct x eqn:?
  end.

Lemma steady_apply_updates (key : json) (i : nat) (u : dict) :
  steady (apply_updates key i u).
Proof.
  induction u as [|[k v] u IH]; cbn [apply_updates]; [apply steady_ret|].
  apply steady_modify; [|done].
  intros rows H. apply Forall_alter; [done|].
  intros x _ Hx. by apply dict_contains_set.
Qed.

Lemma steady_insert_records (key : json) (items : list json) :
  steady (insert_records uuid4 key items).
Proof.
  induction items as [|record rest IH]; cbn [insert_records];
    [apply steady_ret|].
  destruct record; try apply steady_raise.
  apply steady_bind; [apply steady_draw|]. intros fresh. cbv zeta.
  apply steady_modify.
  - intros rows H. apply Forall_app. split; [done|].
    apply Forall_singleton, has_id_set_id.
  - repeat steady_step. done.
Qed.

Lemma steady_query (parameters : json) :
  steady (handle_query py_repr parameters).
Proof. unfold handle_query. repeat steady_step. Qed.

Lemma steady_insert (parameters : json) :
  steady (handle_insert uuid4 parameters).
Proof.
  unfold handle_insert. repeat steady_step.
  - apply steady_create. by destruct (truthy a).
  - apply steady_insert_records.
Qed.

Lemma steady_update (parameters : json) :
  steady (handle_update py_repr parameters).
Proof.
  unfold handle_update. repeat steady_step; apply steady_apply_updates.
Qed.

Lemma steady_delete (parameters : json) :
  steady (handle_delete py_repr parameters).
Proof.
  unfold handle_delete. repeat steady_step.
  intros rows H. by apply Forall_delete.
Qed.

Lemma steady_dispatch (function_name : string) (parameters : json) :
  steady (dispatch uuid4 py_repr function_name parameters).
Proof.
  unfold dispatch. repeat steady_step;
    auto using steady_query, steady_insert, steady_update, steady_delete.
  intros w. apply extends_refl.
Qed.

Lemma handle_extends (function_name : string) (body : request_body)
  (w : world) :
  extends w (fst (handle function_name body w)).
Proof.
  unfold handle_mcp_request.
  destruct body as [| |m|v]; [|apply extends_refl|apply extends_refl|].
  - pose proof (steady_dispatch function_name (JObj []) w) as H.
    by destruct (dispatch _ _ _ _ w) as [w' [?|?]].
  - pose proof (steady_dispatch function_name v w) as H.
    by destruct (dispatch _ _ _ _ w) as [w' [?|?]].
Qed.

Lemma reachable_from_extends (w w' : world) :
  reachable_from w w' -> extends w w'.
Proof.
  induction 1 as [|w' fn body _ IH]; [apply extends_refl|].
  eapply extends_trans; [exact IH | apply handle_extends].
Qed.

Lemma seed_rows_ok : rows_ok (tables seed).
Proof. unfold rows_ok. simpl. repeat constructor. Qed.

Lemma seed_keys_ok : keys_ok (tables seed).
Proof. unfold keys_ok. simpl. repeat constructor. Qed.

Lemma reachable_rows_ok (w : world) : reachable w -> rows_ok (tables w).
Proof.
  intros H. apply reachable_from_extends in H as (_ & _ & Hr & _).
  apply Hr, seed_rows_ok.
Qed.

Lemma reachable_keys_ok (w : world) : reachable w -> keys_ok (tables w).
Proof.
  intros H. apply reachable_from_extends in H as (_ & _ & _ & Hk).
  apply Hk, seed_keys_ok.
Qed.

(** *** The operations, run *)

Ltac enter_handler :=
  unfold handle_mcp_request, query_call, insert_call, update_call,
    delete_call, dispatch, handle_query, handle_insert, handle_update,
    handle_delete, handle_list_tables;
  cbn [String.eqb Ascii.eqb Bool.eqb py_get dict_get lift bind py_str].

Lemma query_run (T : string) (F : dict) (w : world) (rows : list dict) :
  T <> "" ->
  tables_lookup (JStr T) (tables w) = Some rows ->
  handle "query" (query_call T F) w =
    (w, data_reply (List.filter (matches F) rows)).
Proof.
  intros HT Hrows. apply truthy_str in HT. enter_handler.
  rewrite HT. cbn [negb].
  unfold bind at 1. unfold tables_contains. cbn [hashable].
  rewrite Hrows. cbn [negb].
  unfold bind at 1. unfold tables_getitem. cbn [hashable].
  rewrite Hrows. unfold bind.
  destruct F as [|kv F]; cbn [truthy]; unfold lift, ret.
  - by rewrite filter_no_filters.
  - by rewrite filter_rows_obj.
Qed.

Lemma store_store_new (key : json) (r1 r2 : list dict)
  (t : list (json * list dict)) :
  hashable key = true ->
  tables_store key r2 (tables_store key r1 t) = tables_store key r2 t.
Proof.
  intros Hh. induction t as [|[k old] t IH]; simpl.
  - by rewrite py_eq_refl_hashable.
  - destruct (py_eq k key) eqn:E; simpl; rewrite E; [done | by rewrite IH].
Qed.

Lemma insert_run (T : string) (R : list dict) (w : world) :
  T <> "" -> R <> [] ->
  handle "insert" (insert_call T R) w =
    (World
       (tables_store (JStr T)
          (default [] (tables_lookup (JStr T) (tables w)) ++
           imap (fun j => stamped uuid4 (uuid_draws w + j)) R)
          (tables w))
       (uuid_draws w + length R),
     ids_reply (imap (fun j => assigned_id uuid4 (uuid_draws w + j)) R)).
Proof.
  intros HT HR. apply truthy_str in HT. enter_handler.
  rewrite HT. cbn [negb].
  assert (truthy (JArr (map JObj R)) = true) as -> by by destruct R.
  cbn [negb].
  unfold bind at 1. unfold tables_contains. cbn [hashable].
  destruct (tables_lookup (JStr T) (tables w)) as [rows|] eqn:Hrows;
    cbn [negb default].
  - unfold bind at 1. unfold ret at 1.
    unfold bind at 1. cbn [py_iter lift]. unfold bind at 1.
    by rewrite (insert_records_run _ _ _ rows).
  - unfold bind at 1. unfold tables_setitem. cbn [hashable].
    unfold bind at 1. cbn [py_iter lift]. unfold bind at 1.
    rewrite (insert_records_run _ _ _ [])
      by (try done; cbn [tables]; by apply lookup_store_new).
    cbn [tables uuid_draws]. by rewrite store_store_new.
Qed.

Lemma update_run (T : string) (i : json) (U : dict) (w : world)
  (rows : list dict) (n : nat) :
  T <> "" -> truthy i = true -> U <> [] ->
  tables_lookup (JStr T) (tables w) = Some rows ->
  find_record i 0 rows = Some n ->
  handle "update" (update_call T i U) w =
    (World (tables_store (JStr T) (alter (merged U) n rows) (tables w))
           (uuid_draws w),
     success_reply).
Proof.
  intros HT Hi HU Hrows Hn. apply truthy_str in HT. enter_handler.
  rewrite HT, Hi. cbn [negb].
  assert (truthy (JObj U) = true) as -> by by destruct U.
  cbn [negb].
  unfold bind at 1. unfold tables_contains. cbn [hashable].
  rewrite Hrows. cbn [negb].
  unfold bind at 1. unfold tables_getitem. cbn [hashable].
  rewrite Hrows, Hn. unfold bind.
  by rewrite (apply_updates_run _ _ _ _ rows).
Qed.

Lemma delete_run (T : string) (i : json) (w : world) (rows : list dict)
  (n : nat) :
  T <> "" -> truthy i = true ->
  tables_lookup (JStr T) (tables w) = Some rows ->
  find_record i 0 rows = Some n ->
  handle "delete" (delete_call T i) w =
    (World (tables_store (JStr T) (delete n rows) (tables w)) (uuid_draws w),
     success_reply).
Proof.
  intros HT Hi Hrows Hn. apply truthy_str in HT. enter_handler.
  rewrite HT, Hi. cbn [negb].
  unfold bind at 1. unfold tables_contains. cbn [hashable].
  rewrite Hrows. cbn [negb].
  unfold bind at 1. unfold tables_getitem. cbn [hashable].
  rewrite Hrows, Hn. unfold bind, tables_setitem. cbn [hashable].
  by rewrite Hrows.
Qed.

Lemma delete_no_record (T : string) (i : json) (w : world)
  (rows : list dict) :
  T <> "" -> truthy i = true ->
  tables_lookup (JStr T) (tables w) = Some rows ->
  no_match i rows ->
  handle "delete" (delete_call T i) w =
    (w, error_reply ("Record with id " +:+ py_str py_repr i
                     +:+ " not found in table " +:+ T)).
Proof.
  intros HT Hi Hrows Hn. apply truthy_str in HT.
  apply (find_record_none _ _ 0) in Hn. enter_handler.
  rewrite HT, Hi. cbn [negb].
  unfold bind at 1. unfold tables_contains. cbn [hashable].
  rewrite Hrows. cbn [negb].
  unfold bind at 1. unfold tables_getitem. cbn [hashable].
  by rewrite Hrows, Hn.
Qed.

Lemma alter_as_insert {A} (f : A -> A) (l : list A) (n : nat) (x : A) :
  l !! n = Some x -> alter f n l = <[n := f x]> l.
Proof.
  intros H. rewrite list_insert_alter.
  apply list_alter_ext; [|done]. intros y Hy. congruence.
Qed.

Lemma reachable_lookup_named (w : world) (T : string) (rows : list dict) :
  reachable w -> tables_lookup (JStr T) (tables w) = Some rows -> T <> "".
Proof.
  intros Hw Hrows. eapply lookup_keys_ok; [|done]. by apply reachable_keys_ok.
Qed.

(** ** The claims *)

(** C1, amended.  On a table [T] of a reachable store, [query(T, F)]
    answers with exactly the records of [T], in table order, in which every
    key of [F] is present with a value equal to the filter value under
    Python's [==] (deep equality, with [True == 1] and [False == 0]), so
    that every record meeting the filters under strict JSON equality is
    among them; with no filters it answers with all of [T]; the store is
    not written. *)
Theorem query_returns_matching_records (w : world) (T : string) (F : dict)
  (rows : list dict) :
  reachable w ->
  tables_lookup (JStr T) (tables w) = Some rows ->
  handle "query" (query_call T F) w
    = (w, data_reply (List.filter (matches F) rows)) /\
  (forall item, matches F item = true <-> loose_match F item) /\
  (forall item, strict_match F item -> matches F item = true) /\
  handle "query" (query_call T []) w = (w, data_reply rows).
Proof.
  intros Hw Hrows.
  pose proof (reachable_lookup_named _ _ _ Hw Hrows) as HT.
  split_and!.
  - by apply query_run.
  - intros item. apply matches_spec.
  - intros item H. by apply matches_spec, strict_match_loose.
  - rewrite (query_run _ _ _ rows) by done. by rewrite filter_no_filters.
Qed.

(** C2, amended.  For a table [T] of a reachable store, a truthy id [i]
    and a non-empty mapping [U], when [r] at index [n] is the first record
    of [T] whose id equals [i], [update(T, i, U)] answers success and
    replaces that record alone: every key of [U] then holds the value of
    [U], every other field of the record is as before, every other record,
    every other table, the table names and the UUID counter are as
    before. *)
Theorem update_merges_into_first_match (w : world) (T : string) (i : json)
  (U : dict) (rows : list dict) (n : nat) (r : dict) :
  reachable w ->
  truthy i = true -> U <> [] -> NoDup U.*1 ->
  tables_lookup (JStr T) (tables w) = Some rows ->
  first_match i rows n r ->
  exists w' r',
    handle "update" (update_call T i U) w = (w', success_reply) /\
    tables_lookup (JStr T) (tables w') = Some (<[n := r']> rows) /\
    (forall k v, (k, v) ∈ U -> dict_get k r' = Some v) /\
    (forall k, k ∉ U.*1 -> dict_get k r' = dict_get k r) /\
    (forall K, K <> JStr T ->
       tables_lookup K (tables w') = tables_lookup K (tables w)) /\
    (tables w').*1 = (tables w).*1 /\
    uuid_draws w' = uuid_draws w.
Proof.
  intros Hw Hi HU Hnd Hrows Hfirst.
  pose proof (reachable_lookup_named _ _ _ Hw Hrows) as HT.
  pose proof (find_record_first _ _ _ _ Hfirst) as Hn.
  destruct Hfirst as (Hr & _ & _).
  eexists _, (merged U r). split_and!.
  - by apply update_run.
  - cbn [tables]. rewrite (alter_as_insert _ _ _ _ Hr).
    by eapply lookup_store_hit.
  - intros k v Hkv. by apply dict_get_merged_in.
  - intros k Hk. by apply dict_get_merged_other.
  - intros K HK. cbn [tables]. by apply lookup_store_other.
  - cbn [tables]. by eapply keys_store_hit.
  - done.
Qed.

(** C3, amended.  For a table [T] of a reachable store and a truthy id [i],
    when the record at index [n] is the first of [T] whose id equals [i],
    [delete(T, i)] answers success and removes that record alone: the
    records before it stay, the records after it move one position left,
    the length drops by one and the other tables are untouched.  The same
    delete repeated at once answers not-found when no remaining record has
    an id equal to [i], and succeeds again otherwise. *)
Theorem delete_removes_first_match (w : world) (T : string) (i : json)
  (rows : list dict) (n : nat) (r : dict) :
  reachable w ->
  truthy i = true ->
  tables_lookup (JStr T) (tables w) = Some rows ->
  first_match i rows n r ->
  exists w',
    handle "delete" (delete_call T i) w = (w', success_reply) /\
    tables_lookup (JStr T) (tables w') = Some (delete n rows) /\
    S (length (delete n rows)) = length rows /\
    (forall j, j < n -> delete n rows !! j = rows !! j) /\
    (forall j, n <= j -> delete n rows !! j = rows !! S j) /\
    (forall K, K <> JStr T ->
       tables_lookup K (tables w') = tables_lookup K (tables w)) /\
    (no_match i (delete n rows) ->
       handle "delete" (delete_call T i) w'
         = (w', error_reply ("Record with id " +:+ py_str py_repr i
                             +:+ " not found in table " +:+ T))) /\
    (~ no_match i (delete n rows) ->
       exists w'', handle "delete" (delete_call T i) w' = (w'', success_reply)).
Proof.
  intros Hw Hi Hrows Hfirst.
  pose proof (reachable_lookup_named _ _ _ Hw Hrows) as HT.
  pose proof (find_record_first _ _ _ _ Hfirst) as Hn.
  destruct Hfirst as (Hr & _ & _).
  assert (tables_lookup (JStr T)
            (tables_store (JStr T) (delete n rows) (tables w))
          = Some (delete n rows)) as Hrows' by by eapply lookup_store_hit.
  eexists. split_and!.
  - by apply delete_run.
  - done.
  - rewrite length_delete by eauto. apply lookup_lt_Some in Hr. lia.
  - intros j Hj. by apply list_lookup_delete_lt.
  - intros j Hj. by apply list_lookup_delete_ge.
  - intros K HK. cbn [tables]. by apply lookup_store_other.
  - intros Hnone. by apply (delete_no_record _ _ _ (delete n rows)).
  - intros Hsome.
    destruct (find_record i 0 (delete n rows)) as [m|] eqn:Hm.
    + eexists. by apply (delete_run _ _ _ (delete n rows) m).
    + by apply find_record_none in Hm.
Qed.

(** C4, amended.  For a non-empty table name [T] and a non-empty sequence
    of records [R], [insert(T, R)] appends one record per input record, in
    input order, after the records [T] already had (none when [T] is new);
    a record that has an [id] is appended as it is and its id is answered;
    a record without one is appended with the UUID of its own draw as
    [id], and that UUID is answered; the other tables are untouched. *)
Theorem insert_appends_in_order (w : world) (T : string) (R : list dict) :
  T <> "" -> R <> [] ->
  exists w' ids new,
    handle "insert" (insert_call T R) w = (w', ids_reply ids) /\
    tables_lookup (JStr T) (tables w')
      = Some (default [] (tables_lookup (JStr T) (tables w)) ++ new) /\
    length new = length R /\
    length ids = length R /\
    (forall j r, R !! j = Some r ->
       match dict_get "id" r with
       | Some x => ids !! j = Some x /\ new !! j = Some r
       | None =>
           ids !! j = Some (JStr (uuid4 (uuid_draws w + j))) /\
           new !! j = Some (r ++ [("id", JStr (uuid4 (uuid_draws w + j)))])
       end) /\
    (forall K, K <> JStr T ->
       tables_lookup K (tables w') = tables_lookup K (tables w)).
Proof.
  intros HT HR. eexists _, _, _. split_and!.
  - by apply insert_run.
  - cbn [tables]. by apply lookup_store_new.
  - apply length_imap.
  - apply length_imap.
  - intros j r Hj. rewrite !list_lookup_imap, Hj.
    cbn [fmap option_fmap option_map].
    unfold stamped, assigned_id.
    destruct (dict_get "id" r) as [x|] eqn:Hx.
    + by rewrite dict_set_same.
    + by rewrite dict_set_fresh.
  - intros K HK. cbn [tables]. by apply lookup_store_other.
Qed.

Lemma given_get (P : dict) (name : string) (fallback : json) :
  truthy fallback = false ->
  truthy (match dict_get name P with Some v => v | None => fallback end)
  = given P name.
Proof. intros H. unfold given. by destruct (dict_get name P). Qed.

Ltac failed_leaf := cbn; intros [= <- <-]; done.

Lemma update_failure_atomic (w : world) (body : request_body) :
  snd (handle "update" body w) <> success_reply ->
  fst (handle "update" body w) = w.
Proof.
  destruct (handle "update" body w) as [w' reply] eqn:E. cbn [fst snd].
  intros Hne. revert E.
  destruct body as [| |m|v]; [failed_leaf | failed_leaf | failed_leaf |].
  destruct v as [| | | | |P]; try failed_leaf.
  enter_handler.
  destruct (truthy (match dict_get "table" P with
                    | Some v => v | None => JNull end)) eqn:Ht;
    [|failed_leaf].
  destruct (truthy (match dict_get "id" P with
                    | Some v => v | None => JNull end)); [|failed_leaf].
  destruct (truthy (match dict_get "updates" P with
                    | Some v => v | None => JObj [] end)); [|failed_leaf].
  cbn [negb]. unfold bind at 1. unfold tables_contains.
  destruct (hashable _) eqn:Hh; [|failed_leaf].
  destruct (tables_lookup _ (tables w)) as [rows|] eqn:Hrows;
    [|failed_leaf].
  cbn [negb]. unfold bind at 1. unfold tables_getitem. rewrite Hh, Hrows.
  destruct (find_record _ 0 rows) as [n|]; [|failed_leaf].
  destruct (match dict_get "updates" P with
            | Some v => v | None => JObj [] end) as [| | | | |u];
    try failed_leaf.
  unfold bind. rewrite (apply_updates_run _ _ _ _ rows) by done.
  cbn. by intros [= _ <-].
Qed.

Lemma delete_failure_atomic (w : world) (body : request_body) :
  snd (handle "delete" body w) <> success_reply ->
  fst (handle "delete" body w) = w.
Proof.
  destruct (handle "delete" body w) as [w' reply] eqn:E. cbn [fst snd].
  intros Hne. revert E.
  destruct body as [| |m|v]; [failed_leaf | failed_leaf | failed_leaf |].
  destruct v as [| | | | |P]; try failed_leaf.
  enter_handler.
  destruct (truthy (match dict_get "table" P with
                    | Some v => v | None => JNull end)) eqn:Ht;
    [|failed_leaf].
  destruct (truthy (match dict_get "id" P with
                    | Some v => v | None => JNull end)); [|failed_leaf].
  cbn [negb]. unfold bind at 1. unfold tables_contains.
  destruct (hashable _) eqn:Hh; [|failed_leaf].
  destruct (tables_lookup _ (tables w)) as [rows|] eqn:Hrows;
    [|failed_leaf].
  cbn [negb]. unfold bind at 1. unfold tables_getitem. rewrite Hh, Hrows.
  destruct (find_record _ 0 rows) as [n|]; [|failed_leaf].
  unfold bind, tables_setitem. rewrite Hh, Hrows.
  cbn. by intros [= _ <-].
Qed.

Lemma update_not_found (w : world) (P : dict) (table_name record_id : json) :
  dict_get "table" P = Some table_name ->
  truthy table_name = true -> hashable table_name = true ->
  dict_get "id" P = Some record_id -> truthy record_id = true ->
  given P "updates" = true ->
  (tables_lookup table_name (tables w) = None ->
   handle "update" (Parsed (JObj P)) w
   = (w, error_reply ("Table " +:+ py_str py_repr table_name
                      +:+ " not found"))) /\
  (forall rows,
     tables_lookup table_name (tables w) = Some rows ->
     no_match record_id rows ->
     handle "update" (Parsed (JObj P)) w
     = (w, error_reply ("Record with id " +:+ py_str py_repr record_id
                        +:+ " not found in table "
                        +:+ py_str py_repr table_name))).
Proof.
  intros Htable Ht Hh Hid Hi Hu.
  rewrite <- (given_get P "updates" (JObj [])) in Hu by done.
  split; [intros Hnone | intros rows Hrows Hno];
    enter_handler; rewrite Htable, Hid, Ht, Hi, Hu; cbn [negb];
    unfold bind at 1; unfold tables_contains; rewrite Hh.
  - by rewrite Hnone.
  - rewrite Hrows. cbn [negb]. unfold bind at 1. unfold tables_getitem.
    rewrite Hh, Hrows. apply (find_record_none _ _ 0) in Hno.
    by rewrite Hno.
Qed.

Lemma delete_not_found (w : world) (P : dict) (table_name record_id : json) :
  dict_get "table" P = Some table_name ->
  truthy table_name = true -> hashable table_name = true ->
  dict_get "id" P = Some record_id -> truthy record_id = true ->
  (tables_lookup table_name (tables w) = None ->
   handle "delete" (Parsed (JObj P)) w
   = (w, error_reply ("Table " +:+ py_str py_repr table_name
                      +:+ " not found"))) /\
  (forall rows,
     tables_lookup table_name (tables w) = Some rows ->
     no_match record_id rows ->
     handle "delete" (Parsed (JObj P)) w
     = (w, error_reply ("Record with id " +:+ py_str py_repr record_id
                        +:+ " not found in table "
                        +:+ py_str py_repr table_name))).
Proof.
  intros Htable Ht Hh Hid Hi.
  split; [intros Hnone | intros rows Hrows Hno];
    enter_handler; rewrite Htable, Hid, Ht, Hi; cbn [negb];
    unfold bind at 1; unfold tables_contains; rewrite Hh.
  - by rewrite Hnone.
  - rewrite Hrows. cbn [negb]. unfold bind at 1. unfold tables_getitem.
    rewrite Hh, Hrows. apply (find_record_none _ _ 0) in Hno.
    by rewrite Hno.
Qed.

(** C5.  Take any update or delete whose [table] and [id] pass the
    required-parameter tests (and whose [updates] does, for update).  If
    the table is unknown, the answer is "Table <table> not found"; if it
    is known and none of its records has the id, the answer is "Record
    with id <id> not found in table <table>"; either way the world is
    returned as it was.  More generally, an update or a delete that does
    not answer success, whatever its body, leaves the world as it was. *)
Theorem not_found_leaves_store_unchanged (w : world) (P : dict)
  (table_name record_id : json) :
  dict_get "table" P = Some table_name ->
  truthy table_name = true -> hashable table_name = true ->
  dict_get "id" P = Some record_id -> truthy record_id = true ->
  (tables_lookup table_name (tables w) = None ->
   handle "delete" (Parsed (JObj P)) w
   = (w, error_reply ("Table " +:+ py_str py_repr table_name
                      +:+ " not found")) /\
   (given P "updates" = true ->
    handle "update" (Parsed (JObj P)) w
    = (w, error_reply ("Table " +:+ py_str py_repr table_name
                       +:+ " not found")))) /\
  (forall rows,
     tables_lookup table_name (tables w) = Some rows ->
     no_match record_id rows ->
     handle "delete" (Parsed (JObj P)) w
     = (w, error_reply ("Record with id " +:+ py_str py_repr record_id
                        +:+ " not found in table "
                        +:+ py_str py_repr table_name)) /\
     (given P "updates" = true ->
      handle "update" (Parsed (JObj P)) w
      = (w, error_reply ("Record with id " +:+ py_str py_repr record_id
                         +:+ " not found in table "
                         +:+ py_str py_repr table_name)))) /\
  (forall function_name body,
     function_name ∈ ["update"; "delete"] ->
     snd (handle function_name body w) <> success_reply ->
     fst (handle function_name body w) = w).
Proof.
  intros Htable Ht Hh Hid Hi.
  destruct (delete_not_found w P _ _ Htable Ht Hh Hid Hi) as [Hd1 Hd2].
  split_and!.
  - intros Hnone. split; [by apply Hd1|]. intros Hu.
    destruct (update_not_found w P _ _ Htable Ht Hh Hid Hi Hu) as [Hu1 _].
    by apply Hu1.
  - intros rows Hrows Hno. split; [by apply (Hd2 rows)|]. intros Hu.
    destruct (update_not_found w P _ _ Htable Ht Hh Hid Hi Hu) as [_ Hu2].
    by apply (Hu2 rows).
  - intros fn body. rewrite !elem_of_cons, elem_of_nil.
    intros [->|[->|[]]];
      [apply update_failure_atomic | apply delete_failure_atomic].
Qed.

Lemma list_tables_run (w : world) (body : request_body) :
  parses body = true ->
  handle "list_tables" body w = (w, tables_reply (tables w).*1).
Proof. intros Hb. by destruct body. Qed.

(** C6, amended.  For a non-empty table name [T] absent from the store and
    a non-empty sequence of records [R], [insert(T, R)] succeeds and
    creates [T] after the existing tables, holding the inserted records,
    each with its id, and nothing else; from then on, whatever requests
    follow, [list_tables()] answers with names that include [T]. *)
Theorem insert_creates_table (w : world) (T : string) (R : list dict) :
  T <> "" -> R <> [] ->
  tables_lookup (JStr T) (tables w) = None ->
  exists w' ids,
    handle "insert" (insert_call T R) w = (w', ids_reply ids) /\
    tables_lookup (JStr T) (tables w')
    = Some (imap (fun j => stamped uuid4 (uuid_draws w + j)) R) /\
    (tables w').*1 = (tables w).*1 ++ [JStr T] /\
    forall w'' body,
      reachable_from w' w'' -> parses body = true ->
      exists names,
        handle "list_tables" body w'' = (w'', tables_reply names) /\
        JStr T ∈ names.
Proof.
  intros HT HR Hnone. eexists _, _. split_and!.
  - by apply insert_run.
  - cbn [tables]. rewrite Hnone. cbn [default app].
    by apply lookup_store_new.
  - cbn [tables]. by apply keys_store_new.
  - intros w'' body Hreach Hbody. eexists. split; [by apply list_tables_run|].
    apply reachable_from_extends in Hreach as (_ & Hpre & _).
    cbn [tables] in Hpre. rewrite (keys_store_new _ _ _ Hnone) in Hpre.
    destruct Hpre as [k ->]. rewrite !elem_of_app, list_elem_of_singleton. auto.
Qed.

(** C7.  A function name outside the five is answered with "Function
    <name> not supported" whenever the body is empty or parses; a body on
    which [json.loads] raises [JSONDecodeError] is answered with "Invalid
    JSON in request body" whatever the function; an empty body is handled
    as the empty mapping, so that query, insert, update and delete answer
    with their own "table parameter is required".  But a body on which
    [json.loads] raises anything else, as it does on bytes that are not
    UTF-8, is answered with the text of that exception, not with "Invalid
    JSON in request body". *)
Theorem dispatcher_rejections (w : world) (function_name : string) :
  (function_name ∉ supported ->
   forall body, parses body = true ->
     handle function_name body w
       = (w, error_reply ("Function " +:+ function_name
                          +:+ " not supported"))) /\
  handle function_name InvalidJson w
    = (w, error_reply "Invalid JSON in request body") /\
  (forall message,
     handle function_name (Undecodable message) w
       = (w, error_reply message)) /\
  handle function_name EmptyBody w
    = handle function_name (Parsed (JObj [])) w /\
  (function_name ∈ ["query"; "insert"; "update"; "delete"] ->
   handle function_name EmptyBody w
     = (w, error_reply "table parameter is required")).
Proof.
  split_and!.
  - intros Hout body Hbody. unfold supported in Hout.
    rewrite !not_elem_of_cons in Hout.
    destruct Hout as (Hq & Hi & Hu & Hd & Hl & _).
    unfold handle_mcp_request, dispatch.
    apply String.eqb_neq in Hq, Hi, Hu, Hd, Hl.
    rewrite Hq, Hi, Hu, Hd, Hl. by destruct body.
  - done.
  - done.
  - done.
  - rewrite !elem_of_cons, elem_of_nil.
    by intros [->|[->|[->|[->|[]]]]].
Qed.

(** C9.  The seed records all carry an [id] key; every request keeps that
    true of every record of every table, so it holds in every reachable
    store; insert appends a record only once its [id] key is written, and
    writing a key into a record removes no other key. *)
Theorem every_record_has_id :
  rows_ok (tables seed) /\
  (forall w function_name body,
     rows_ok (tables w) ->
     rows_ok (tables (fst (handle function_name body w)))) /\
  (forall w, reachable w ->
     forall K rows r, (K, rows) ∈ tables w -> r ∈ rows ->
       dict_contains "id" r = true) /\
  (forall n r, dict_contains "id" (stamped uuid4 n r) = true) /\
  (forall k key value d,
     dict_contains k d = true -> dict_contains k (dict_set key value d) = true).
Proof.
  split_and!.
  - apply seed_rows_ok.
  - intros w fn body Hok.
    by destruct (handle_extends fn body w) as (_ & _ & Hr & _); auto.
  - intros w Hw K rows r HK Hr.
    pose proof (reachable_rows_ok _ Hw) as Hok. unfold rows_ok in Hok.
    rewrite Forall_forall in Hok. specialize (Hok _ HK). cbn [snd] in Hok.
    rewrite Forall_forall in Hok. by apply Hok.
  - intros n r. apply has_id_set_id.
  - intros k key value d. apply dict_contains_set.
Qed.

(** C10, amended.  The required-parameter tests are truthiness tests, made
    in the order table, id, updates (table, records for insert), and the
    first that fails decides the answer: a [table] that is absent or falsy
    makes the four operations answer "table parameter is required"; with
    a truthy [table], an absent or falsy [id] makes update and delete
    answer "id parameter is required" before the table is even looked up;
    then an absent or falsy [updates] makes update answer "updates
    parameter is required", and with a truthy [table] an absent or falsy
    [records] makes insert answer "records parameter is required".  The
    world is untouched, and the empty string, 0, false, null, the empty
    mapping and the empty sequence are all falsy. *)
Theorem falsy_parameters_are_missing (w : world) (P : dict) :
  (given P "table" = false ->
   forall function_name,
     function_name ∈ ["query"; "insert"; "update"; "delete"] ->
     handle function_name (Parsed (JObj P)) w
       = (w, error_reply "table parameter is required")) /\
  (given P "table" = true -> given P "id" = false ->
   forall function_name,
     function_name ∈ ["update"; "delete"] ->
     handle function_name (Parsed (JObj P)) w
       = (w, error_reply "id parameter is required")) /\
  (given P "table" = true -> given P "id" = true ->
   given P "updates" = false ->
   handle "update" (Parsed (JObj P)) w
     = (w, error_reply "updates parameter is required")) /\
  (given P "table" = true -> given P "records" = false ->
   handle "insert" (Parsed (JObj P)) w
     = (w, error_reply "records parameter is required")) /\
  truthy (JStr "") = false /\ truthy (JInt 0) = false /\
  truthy (JBool false) = false /\ truthy JNull = false /\
  truthy (JObj []) = false /\ truthy (JArr []) = false.
Proof.
  split_and!; try done.
  - intros Ht fn. rewrite !elem_of_cons, elem_of_nil.
    intros [->|[->|[->|[->|[]]]]]; enter_handler;
      rewrite (given_get P "table") by done; by rewrite Ht.
  - intros Ht Hi fn. rewrite !elem_of_cons, elem_of_nil.
    intros [->|[->|[]]]; enter_handler;
      rewrite (given_get P "table"), (given_get P "id") by done;
      by rewrite Ht, Hi.
  - intros Ht Hi Hu. enter_handler.
    rewrite (given_get P "table"), (given_get P "id"),
      (given_get P "updates") by done.
    by rewrite Ht, Hi, Hu.
  - intros Ht Hr. enter_handler.
    rewrite (given_get P "table"), (given_get P "records") by done.
    by rewrite Ht, Hr.
Qed.




(** ** Further properties of the handler *)

(** *** Relations every step of a computation keeps *)

Section Respects.

Variable R : world -> world -> Prop.
Hypothesis R_refl : forall w, R w w.
Hypothesis R_trans : forall w1 w2 w3, R w1 w2 -> R w2 w3 -> R w1 w3.

Lemma respects_ret {A} (a : A) : respects R (ret a).
Proof. intros w. apply R_refl. Qed.

Lemma respects_raise {A} (e : pyexn) : respects R (raise (A:=A) e).
Proof. intros w. apply R_refl. Qed.

Lemma respects_lift {A} (o : outcome A) : respects R (lift o).
Proof. intros w. apply R_refl. Qed.

Lemma respects_bind {A B} (m : M A) (f : A -> M B) :
  respects R m -> (forall a, respects R (f a)) -> respects R (bind m f).
Proof.
  intros Hm Hf w. unfold bind. specialize (Hm w).
  destruct (m w) as [w' [a|e]]; cbn [fst] in *; [|done].
  eapply R_trans; [done | apply Hf].
Qed.

Lemma respects_contains (key : json) : respects R (tables_contains key).
Proof.
  intros w. unfold tables_contains. destruct (hashable key); apply R_refl.
Qed.

Lemma respects_getitem (key : json) : respects R (tables_getitem key).
Proof.
  intros w. unfold tables_getitem.
  destruct (hashable key); [|apply R_refl].
  destruct (tables_lookup key (tables w)); apply R_refl.
Qed.

Lemma respects_query (parameters : json) :
  respects R (handle_query py_repr parameters).
Proof.
  unfold handle_query.
  repeat first
    [ apply respects_bind; [|intros ?]
    | apply respects_ret | apply respects_lift
    | apply respects_contains | apply respects_getitem
    | match goal with
      | |- respects _ (if ?b then _ else _) => destruct b
      end ].
Qed.

Lemma respects_list_tables : respects R handle_list_tables.
Proof. intros w. apply R_refl. Qed.

Lemma respects_handle (function_name : string) (body : request_body)
  (w : world) :
  (forall parameters,
     respects R (dispatch uuid4 py_repr function_name parameters)) ->
  R w (fst (handle function_name body w)).
Proof.
  intros H. unfold handle_mcp_request.
  destruct body as [| |m|v]; [|apply R_refl|apply R_refl|].
  - pose proof (H (JObj []) w) as H'.
    by destruct (dispatch _ _ _ _ w) as [w' [?|?]].
  - pose proof (H v w) as H'.
    by destruct (dispatch _ _ _ _ w) as [w' [?|?]].
Qed.

End Respects.

(** X1.  Query and list_tables never write: whatever the body, the world after
    the request is the world before it. *)
Theorem reads_never_write (w : world) (function_name : string)
  (body : request_body) :
  function_name ∈ ["query"; "list_tables"] ->
  fst (handle function_name body w) = w.
Proof.
  rewrite !elem_of_cons, elem_of_nil. intros Hfn. symmetry.
  apply (respects_handle eq); [done|].
  intros parameters.
  destruct Hfn as [->|[->|[]]].
  - apply (respects_query eq); [done | by intros ? ? ? ->].
  - apply (respects_list_tables eq). done.
Qed.

(** *** UUIDs are drawn by insert alone *)

Lemma same_draws_setitem (key : json) (rows : list dict) :
  respects same_draws (tables_setitem key rows).
Proof. intros w. unfold tables_setitem. by destruct (hashable key). Qed.

Lemma same_draws_trans (w1 w2 w3 : world) :
  same_draws w1 w2 -> same_draws w2 w3 -> same_draws w1 w3.
Proof. unfold same_draws. congruence. Qed.

Ltac same_draws_step :=
  first
    [ apply (respects_bind same_draws); [apply same_draws_trans | | intros ?]
    | apply (respects_ret same_draws); done
    | apply (respects_raise same_draws); done
    | apply (respects_lift same_draws); done
    | apply (respects_contains same_draws); done
    | apply (respects_getitem same_draws); done
    | apply same_draws_setitem
    | match goal with
      | |- respects _ (if ?b then _ else _) => destruct b
      | |- respects _ (match ?x with _ => _ end) => destruct x
      end ].

Lemma same_draws_apply_updates (key : json) (i : nat) (u : dict) :
  respects same_draws (apply_updates key i u).
Proof.
  induction u as [|[k v] u IH]; cbn [apply_updates]; repeat same_draws_step.
  exact IH.
Qed.

Lemma same_draws_dispatch (function_name : string) (parameters : json) :
  function_name <> "insert" ->
  respects same_draws (dispatch uuid4 py_repr function_name parameters).
Proof.
  intros Hfn. unfold dispatch.
  destruct (String.eqb_spec function_name "query").
  { apply (respects_query same_draws); [done | apply same_draws_trans]. }
  destruct (String.eqb_spec function_name "insert"); [done|].
  destruct (String.eqb_spec function_name "update").
  { unfold handle_update. repeat same_draws_step.
    apply same_draws_apply_updates. }
  destruct (String.eqb_spec function_name "delete").
  { unfold handle_delete. repeat same_draws_step. }
  destruct (String.eqb_spec function_name "list_tables").
  { apply (respects_list_tables same_draws). done. }
  apply (respects_ret same_draws). done.
Qed.

(** X2.  Only insert draws UUIDs.  A request for any other function leaves the
    count of draws as it was; an insert of the records [R] under a
    non-empty table name draws one UUID per record, also for the records
    that bring their own id. *)
Theorem uuids_drawn_by_insert_alone (w : world) :
  (forall function_name body,
     function_name <> "insert" ->
     uuid_draws (fst (handle function_name body w)) = uuid_draws w) /\
  (forall T R,
     T <> "" -> R <> [] ->
     uuid_draws (fst (handle "insert" (insert_call T R) w))
     = uuid_draws w + length R).
Proof.
  split.
  - intros fn body Hfn. apply (respects_handle same_draws); [done|].
    intros parameters. by apply same_draws_dispatch.
  - intros T R HT HR. by rewrite insert_run.
Qed.

(** *** Tables stay *)

Lemma lookup_is_Some_keys (key : json) (t : list (json * list dict)) :
  is_Some (tables_lookup key t) <->
  Exists (fun k => py_eq k key = true) t.*1.
Proof.
  induction t as [|[k rows] t IH]; cbn [tables_lookup].
  - split; [by intros [? ?] | by intros ?%Exists_nil].
  - rewrite fmap_cons, Exists_cons. cbn [fst].
    destruct (py_eq k key) eqn:E.
    + split; [by left | by eexists].
    + rewrite IH. split; [by right | by intros [?|?]].
Qed.

(** X3.  No request removes or renames a table, or moves it in the listing:
    the names of the tables before a sequence of requests are the first
    names after it, in the same order, and a table that could be looked
    up before can be looked up after. *)
Theorem tables_are_never_removed (w w' : world) :
  reachable_from w w' ->
  (tables w).*1 `prefix_of` (tables w').*1 /\
  (forall key, is_Some (tables_lookup key (tables w)) ->
               is_Some (tables_lookup key (tables w'))).
Proof.
  intros Hreach. apply reachable_from_extends in Hreach as (_ & Hpre & _).
  split; [done|]. intros key. rewrite !lookup_is_Some_keys.
  destruct Hpre as [more ->]. intros H. apply Exists_app. by left.
Qed.

(** *** Inserts that fail half-way *)

Lemma store_absent (key : json) (rows' : list dict)
  (t : list (json * list dict)) :
  tables_lookup key t = None -> tables_store key rows' t = t ++ [(key, rows')].
Proof.
  induction t as [|[k old] t IH]; cbn [tables_lookup tables_store]; [done|].
  destruct (py_eq k key); [done|]. intros H. cbn [app]. by rewrite IH.
Qed.

Lemma insert_records_stops (key : json) (R : list dict) (bad : json)
  (rest : list json) (w : world) (rows : list dict) :
  hashable key = true ->
  tables_lookup key (tables w) = Some rows ->
  is_record bad = false ->
  insert_records uuid4 key (map JObj R ++ bad :: rest) w =
    (World (tables_store key
              (rows ++ imap (fun j => stamped uuid4 (uuid_draws w + j)) R)
              (tables w))
           (uuid_draws w + length R),
     Raise (AttributeError (type_name bad) "get")).
Proof.
  intros Hh. revert w rows.
  induction R as [|r R IH]; intros w rows Hrows Hbad.
  - cbn [map app imap length insert_records].
    rewrite app_nil_r, Nat.add_0_r, (store_same _ _ _ Hrows), world_eta.
    by destruct bad.
  - cbn [map app insert_records].
    unfold bind at 1. unfold draw_uuid.
    unfold bind at 1. unfold tables_getitem. cbn [tables uuid_draws].
    rewrite Hh, Hrows.
    unfold bind at 1. unfold tables_setitem. cbn [tables uuid_draws].
    rewrite Hh. unfold bind at 1.
    rewrite (IH _ (rows ++ [stamped uuid4 (uuid_draws w) r]))
      by (try done; cbn [tables]; by eapply lookup_store_hit).
    cbn [tables uuid_draws].
    rewrite (store_store _ _ _ _ _ Hrows).
    rewrite !imap_cons, Nat.add_0_r. cbn [length].
    rewrite <- app_assoc. cbn [app].
    replace (uuid_draws w + S (length R)) with (S (uuid_draws w) + length R)
      by lia.
    rewrite (imap_ext ((fun j => stamped uuid4 (uuid_draws w + j)) ∘ S)
               (fun j => stamped uuid4 (S (uuid_draws w) + j)))
      by (intros j x _; simpl; f_equal; lia).
    reflexivity.
Qed.

(** The world in which the loop of insert starts: the table is there. *)
Lemma insert_unfold (T : string) (records : json) (w : world) :
  T <> "" -> truthy records = true ->
  handle "insert" (call [("table", JStr T); ("records", records)]) w =
    match py_iter records with
    | Raise e =>
        (World (tables_store (JStr T)
                  (default [] (tables_lookup (JStr T) (tables w)))
                  (tables w))
               (uuid_draws w),
         error_reply (exn_str py_repr e))
    | Ok items =>
        match insert_records uuid4 (JStr T) items
                (World (tables_store (JStr T)
                          (default [] (tables_lookup (JStr T) (tables w)))
                          (tables w))
                       (uuid_draws w)) with
        | (w', Ok ids) => (w', ids_reply ids)
        | (w', Raise e) => (w', error_reply (exn_str py_repr e))
        end
    end.
Proof.
  intros HT Hrec. apply truthy_str in HT. unfold call. enter_handler.
  rewrite HT, Hrec. cbn [negb].
  unfold bind at 1. unfold tables_contains. cbn [hashable].
  destruct (tables_lookup (JStr T) (tables w)) as [rows|] eqn:Hrows;
    cbn [negb default from_option id].
  - rewrite (store_same _ _ _ Hrows), world_eta.
    unfold bind at 1. unfold ret at 1. unfold bind at 1.
    destruct (py_iter records) as [items|e]; cbn [lift]; [|done].
    unfold bind, ret.
    by destruct (insert_records uuid4 (JStr T) items w) as [w' [ids|e]].
  - unfold bind at 1. unfold tables_setitem. cbn [hashable].
    unfold bind at 1.
    destruct (py_iter records) as [items|e]; cbn [lift]; [|done].
    unfold bind, ret.
    by destruct (insert_records uuid4 (JStr T) items _) as [w' [ids|e]].
Qed.

(** X4.  Insert is not atomic.  Under a non-empty table name, when the
    sequence of records holds something that is not a record, the records
    before it are stored, with their ids and their UUID draws, the ones
    after it are not, other tables are untouched, and the answer is the
    error of the offending item, without any id. *)
Theorem insert_is_not_atomic (w : world) (T : string) (R : list dict)
  (bad : json) (rest : list json) :
  T <> "" -> is_record bad = false ->
  exists w',
    handle "insert"
      (call [("table", JStr T);
             ("records", JArr (map JObj R ++ bad :: rest))]) w
    = (w', error_reply ("'" +:+ type_name bad
                        +:+ "' object has no attribute 'get'")) /\
    tables_lookup (JStr T) (tables w')
    = Some (default [] (tables_lookup (JStr T) (tables w)) ++
            imap (fun j => stamped uuid4 (uuid_draws w + j)) R) /\
    uuid_draws w' = uuid_draws w + length R /\
    (forall K, K <> JStr T ->
       tables_lookup K (tables w') = tables_lookup K (tables w)).
Proof.
  intros HT Hbad. eexists. split_and!.
  - rewrite insert_unfold by (try done; by destruct R).
    cbn [py_iter].
    rewrite (insert_records_stops _ _ _ _ _
               (default [] (tables_lookup (JStr T) (tables w))))
      by (try done; cbn [tables]; by apply lookup_store_new).
    cbn [tables uuid_draws exn_str]. reflexivity.
  - cbn [tables]. by apply lookup_store_new.
  - done.
  - intros K HK. cbn [tables]. by rewrite !lookup_store_other.
Qed.

(** X5.  The table is created before the records are looked at.  An insert
    under a new, non-empty table name whose [records] is truthy but not
    iterable, or starts with something that is not a record, answers with
    an error and still leaves the new, empty table behind, last in the
    listing. *)
Theorem failed_insert_leaves_table (w : world) (T : string) (records : json) :
  T <> "" -> truthy records = true ->
  tables_lookup (JStr T) (tables w) = None ->
  (exists e, py_iter records = Raise e) \/
  (exists bad rest,
     py_iter records = Ok (bad :: rest) /\ is_record bad = false) ->
  exists message,
    handle "insert" (call [("table", JStr T); ("records", records)]) w
    = (World (tables w ++ [(JStr T, [])]) (uuid_draws w),
       error_reply message) /\
    tables_lookup (JStr T) (tables w ++ [(JStr T, [])]) = Some [].
Proof.
  intros HT Hrec Hnone Hfail.
  assert (tables_lookup (JStr T) (tables w ++ [(JStr T, [])]) = Some [])
    as Hnew.
  { rewrite <- (store_absent _ _ _ Hnone). by apply lookup_store_new. }
  rewrite insert_unfold by done. rewrite Hnone. cbn [default from_option id].
  rewrite (store_absent _ _ _ Hnone).
  destruct Hfail as [[e ->]|(bad & rest & -> & Hbad)].
  - by eexists.
  - rewrite (insert_records_stops _ [] bad rest _ [])
      by (try done).
    cbn [tables uuid_draws imap length].
    rewrite app_nil_r, Nat.add_0_r, (store_same _ _ _ Hnew).
    by eexists.
Qed.

(** *** Round trips *)

Lemma find_record_app_miss (i : json) (rows rest : list dict) (k : nat) :
  no_match i rows ->
  find_record i k (rows ++ rest) = find_record i (k + length rows) rest.
Proof.
  unfold no_match. revert k.
  induction rows as [|r rows IH]; intros k Hno; cbn [app length find_record].
  - by rewrite Nat.add_0_r.
  - apply Forall_cons in Hno as [Hr Hno]. rewrite Hr, IH by done.
    f_equal. lia.
Qed.

Lemma delete_after_append {A} (l : list A) (x : A) :
  delete (length l) (l ++ [x]) = l.
Proof. induction l as [|y l IH]; [done|]. cbn. f_equal. exact IH. Qed.

Lemma record_id_of_stamped (n : nat) (r : dict) :
  record_id_of (stamped uuid4 n r) = assigned_id uuid4 n r.
Proof. unfold record_id_of, stamped. by rewrite dict_get_set_eq. Qed.

Lemma insert_one_run (T : string) (r : dict) (w : world) :
  T <> "" ->
  handle "insert" (insert_call T [r]) w =
    (World
       (tables_store (JStr T)
          (default [] (tables_lookup (JStr T) (tables w)) ++
           [stamped uuid4 (uuid_draws w) r])
          (tables w))
       (S (uuid_draws w)),
     ids_reply [assigned_id uuid4 (uuid_draws w) r]).
Proof.
  intros HT. rewrite insert_run by done.
  cbn [imap length]. by rewrite !Nat.add_0_r, Nat.add_1_r.
Qed.

(** X6.  Insert, then delete.  A record inserted alone under a non-empty table
    name, whose id (its own, or the generated one) is truthy, is equal to
    itself under [==] and is the id of no record of the table yet, is
    removed again by a delete of that id: the table holds what it held
    before (nothing, when the insert created it), and when the table
    existed the whole dictionary of tables is as before.  The id is any
    value of [json], which has no floats; that it equals itself is a
    hypothesis, not a property of [==]. *)
Theorem insert_then_delete_restores (w : world) (T : string) (r : dict) :
  T <> "" ->
  truthy (assigned_id uuid4 (uuid_draws w) r) = true ->
  py_eq (assigned_id uuid4 (uuid_draws w) r)
    (assigned_id uuid4 (uuid_draws w) r) = true ->
  no_match (assigned_id uuid4 (uuid_draws w) r)
    (default [] (tables_lookup (JStr T) (tables w))) ->
  exists w1 w2,
    handle "insert" (insert_call T [r]) w
    = (w1, ids_reply [assigned_id uuid4 (uuid_draws w) r]) /\
    handle "delete" (delete_call T (assigned_id uuid4 (uuid_draws w) r)) w1
    = (w2, success_reply) /\
    tables_lookup (JStr T) (tables w2)
    = Some (default [] (tables_lookup (JStr T) (tables w))) /\
    (is_Some (tables_lookup (JStr T) (tables w)) -> tables w2 = tables w).
Proof.
  intros HT Ht Hh Hno.
  set (a := assigned_id uuid4 (uuid_draws w) r) in *.
  set (old := default [] (tables_lookup (JStr T) (tables w))) in *.
  eexists _, _. split_and!.
  - by apply insert_one_run.
  - apply (delete_run _ _ _ (old ++ [stamped uuid4 (uuid_draws w) r])
             (length old)); try done.
    + cbn [tables]. by apply lookup_store_new.
    + rewrite find_record_app_miss by done. cbn [find_record].
      rewrite record_id_of_stamped. fold a.
      by rewrite Hh.
  - cbn [tables]. rewrite delete_after_append.
    by apply lookup_store_new.
  - intros [rows Hrows]. cbn [tables].
    rewrite delete_after_append, store_store_new by done.
    apply store_same. subst old. by rewrite Hrows.
Qed.

Lemma filter_no_match (a : json) (rows : list dict) :
  no_match a rows -> List.filter (matches [("id", a)]) rows = [].
Proof.
  unfold no_match. induction rows as [|r rows IH]; intros Hno; [done|].
  apply Forall_cons in Hno as [Hr Hno]. cbn [List.filter matches].
  unfold record_id_of in Hr.
  destruct (dict_get "id" r) as [x|]; [rewrite Hr|]; by apply IH.
Qed.

(** X7.  Insert, then query by id.  After a record is inserted alone under a
    non-empty table name, with an id (its own, or the generated one) that
    is equal to itself under [==], the query of that table filtered on
    that id answers with the earlier records of that id followed by the
    record as stored; with the stored record alone, when no earlier record
    had that id.  The id is any value of [json], which has no floats; that
    it equals itself is a hypothesis, not a property of [==]. *)
Theorem insert_then_query_by_id (w : world) (T : string) (r : dict) :
  T <> "" ->
  py_eq (assigned_id uuid4 (uuid_draws w) r)
    (assigned_id uuid4 (uuid_draws w) r) = true ->
  snd (handle "query"
         (query_call T [("id", assigned_id uuid4 (uuid_draws w) r)])
         (fst (handle "insert" (insert_call T [r]) w)))
  = data_reply
      (List.filter (matches [("id", assigned_id uuid4 (uuid_draws w) r)])
         (default [] (tables_lookup (JStr T) (tables w))) ++
       [stamped uuid4 (uuid_draws w) r]) /\
  (no_match (assigned_id uuid4 (uuid_draws w) r)
     (default [] (tables_lookup (JStr T) (tables w))) ->
   snd (handle "query"
          (query_call T [("id", assigned_id uuid4 (uuid_draws w) r)])
          (fst (handle "insert" (insert_call T [r]) w)))
   = data_reply [stamped uuid4 (uuid_draws w) r]).
Proof.
  intros HT Hh.
  set (a := assigned_id uuid4 (uuid_draws w) r) in *.
  set (old := default [] (tables_lookup (JStr T) (tables w))) in *.
  assert (snd (handle "query" (query_call T [("id", a)])
                 (fst (handle "insert" (insert_call T [r]) w)))
          = data_reply (List.filter (matches [("id", a)]) old ++
                        [stamped uuid4 (uuid_draws w) r])) as Hq.
  { rewrite insert_one_run by done. cbn [fst].
    rewrite (query_run _ _ _ (old ++ [stamped uuid4 (uuid_draws w) r]))
      by (try done; cbn [tables]; by apply lookup_store_new).
    cbn [snd]. rewrite List.filter_app. cbn [List.filter matches].
    unfold stamped at 1. rewrite dict_get_set_eq. fold a.
    by rewrite Hh. }
  split; [done|]. intros Hno. rewrite Hq.
  by rewrite filter_no_match.
Qed.

(** *** Updates *)

Lemma merged_same (updates d : dict) :
  (forall k v, (k, v) ∈ updates -> dict_get k d = Some v) ->
  merged updates d = d.
Proof.
  unfold merged. induction updates as [|[k v] u IH]; intros H; [done|].
  cbn [foldl fst snd]. rewrite dict_set_same.
  - apply IH. intros k' v' Hin. apply H. by right.
  - apply H. by left.
Qed.

Lemma merged_twice (updates record : dict) :
  NoDup updates.*1 ->
  merged updates (merged updates record) = merged updates record.
Proof.
  intros Hnd. apply merged_same. intros k v Hin.
  by apply dict_get_merged_in.
Qed.

Lemma first_match_alter (i : json) (rows : list dict) (n : nat) (r : dict)
  (f : dict -> dict) :
  first_match i rows n r ->
  py_eq (record_id_of (f r)) i = true ->
  first_match i (alter f n rows) n (f r).
Proof.
  intros (Hn & _ & Hfirst) Hid. split_and!.
  - by rewrite list_lookup_alter_eq, Hn.
  - done.
  - intros j r' Hj. rewrite list_lookup_alter_ne by lia. by apply Hfirst.
Qed.

(** X8.  Update is idempotent when it leaves the id alone.  For a non-empty
    table name, a truthy id with a first match and a non-empty mapping of
    updates without an [id] key, the same update sent a second time
    succeeds again and changes nothing. *)
Theorem update_twice_is_update_once (w : world) (T : string) (i : json)
  (U : dict) (rows : list dict) (n : nat) (r : dict) :
  T <> "" -> truthy i = true -> U <> [] -> NoDup U.*1 ->
  "id" ∉ U.*1 ->
  tables_lookup (JStr T) (tables w) = Some rows ->
  first_match i rows n r ->
  exists w1,
    handle "update" (update_call T i U) w = (w1, success_reply) /\
    handle "update" (update_call T i U) w1 = (w1, success_reply).
Proof.
  intros HT Hi HU Hnd Hid Hrows Hfirst.
  pose proof (find_record_first _ _ _ _ Hfirst) as Hn.
  assert (first_match i (alter (merged U) n rows) n (merged U r)) as Hfirst'.
  { apply first_match_alter; [done|]. unfold record_id_of.
    rewrite dict_get_merged_other by done. by destruct Hfirst as (_ & ? & _). }
  eexists. split; [by apply update_run|].
  rewrite (update_run _ _ _ _ (alter (merged U) n rows) n); try done.
  - cbn [tables uuid_draws]. f_equal. f_equal.
    rewrite (store_store _ _ _ _ _ Hrows). f_equal.
    rewrite list_alter_alter_eq. apply list_alter_ext; [|done].
    intros x _. by apply merged_twice.
  - cbn [tables]. by eapply lookup_store_hit.
  - by eapply find_record_first.
Qed.

(** X9.  Update does not protect the id.  For a table of the store with a
    non-empty name and a truthy id [i] that some record has, an update
    whose mapping is the single pair [id: j] succeeds and gives the first
    match of [i] the id [j]; when [j] is not equal to [i] and no other record had the id [i], the
    record can no longer be reached under [i]: a delete of [i] then
    answers not-found and changes nothing. *)
Theorem update_can_change_id (w : world) (T : string) (i j : json)
  (rows : list dict) (n : nat) (r : dict) :
  T <> "" -> truthy i = true ->
  tables_lookup (JStr T) (tables w) = Some rows ->
  first_match i rows n r ->
  exists w',
    handle "update" (update_call T i [("id", j)]) w = (w', success_reply) /\
    tables_lookup (JStr T) (tables w')
    = Some (<[n := dict_set "id" j r]> rows) /\
    record_id_of (dict_set "id" j r) = j /\
    (py_eq j i = false ->
     (forall m r', m <> n -> rows !! m = Some r' ->
        py_eq (record_id_of r') i = false) ->
     handle "delete" (delete_call T i) w'
     = (w', error_reply ("Record with id " +:+ py_str py_repr i
                         +:+ " not found in table " +:+ T))).
Proof.
  intros HT Hi Hrows Hfirst.
  pose proof (find_record_first _ _ _ _ Hfirst) as Hn.
  destruct Hfirst as (Hr & _ & _).
  assert (record_id_of (dict_set "id" j r) = j) as Hj.
  { unfold record_id_of. by rewrite dict_get_set_eq. }
  assert (tables_lookup (JStr T)
            (tables_store (JStr T) (alter (merged [("id", j)]) n rows)
               (tables w))
          = Some (<[n := dict_set "id" j r]> rows)) as Hrows'.
  { rewrite (alter_as_insert _ _ _ _ Hr). by eapply lookup_store_hit. }
  eexists. split_and!.
  - by apply update_run.
  - exact Hrows'.
  - exact Hj.
  - intros Hji Hothers.
    apply (delete_no_record _ _ _ (<[n := dict_set "id" j r]> rows));
      try done.
    unfold no_match. apply Forall_lookup. intros m r' Hm.
    apply list_lookup_insert_Some in Hm as [(-> & <- & _)|(Hne & Hm)].
    + by rewrite Hj.
    + by apply (Hothers m).
Qed.

(** *** Ill-typed requests *)

(** X10.  A table name that is a non-empty list or dictionary cannot be looked
    up: query, insert, update and delete answer with the interpreter's
    "unhashable type" once their earlier parameter tests are passed, and
    write nothing; insert does not create a table. *)
Theorem unhashable_table_name (w : world) (P : dict) (table_name : json) :
  dict_get "table" P = Some table_name ->
  truthy table_name = true -> hashable table_name = false ->
  handle "query" (call P) w
  = (w, error_reply ("unhashable type: '" +:+ type_name table_name
                     +:+ "'")) /\
  (given P "records" = true ->
   handle "insert" (call P) w
   = (w, error_reply ("unhashable type: '" +:+ type_name table_name
                      +:+ "'"))) /\
  (given P "id" = true ->
   handle "delete" (call P) w
   = (w, error_reply ("unhashable type: '" +:+ type_name table_name
                      +:+ "'"))) /\
  (given P "id" = true -> given P "updates" = true ->
   handle "update" (call P) w
   = (w, error_reply ("unhashable type: '" +:+ type_name table_name
                      +:+ "'"))).
Proof.
  intros Htable Ht Hh. unfold call. split_and!.
  - enter_handler. rewrite Htable, Ht. cbn [negb].
    unfold bind at 1. unfold tables_contains. by rewrite Hh.
  - intros Hr. rewrite <- (given_get P "records" (JArr [])) in Hr by done.
    enter_handler. rewrite Htable, Ht, Hr. cbn [negb].
    unfold bind at 1. unfold tables_contains. by rewrite Hh.
  - intros Hi. rewrite <- (given_get P "id" JNull) in Hi by done.
    enter_handler. rewrite Htable, Ht, Hi. cbn [negb].
    unfold bind at 1. unfold tables_contains. by rewrite Hh.
  - intros Hi Hu. rewrite <- (given_get P "id" JNull) in Hi by done.
    rewrite <- (given_get P "updates" (JObj [])) in Hu by done.
    enter_handler. rewrite Htable, Ht, Hi, Hu. cbn [negb].
    unfold bind at 1. unfold tables_contains. by rewrite Hh.
Qed.

(** X11.  A body that parses to something else than an object (an array, a
    string, a number, a boolean, null) makes query, insert, update and
    delete answer that the value has no attribute [get], and write
    nothing; list_tables, which reads no parameter, answers as usual. *)
Theorem parameters_must_be_an_object (w : world) (v : json) :
  is_record v = false ->
  (forall function_name,
     function_name ∈ ["query"; "insert"; "update"; "delete"] ->
     handle function_name (Parsed v) w
     = (w, error_reply ("'" +:+ type_name v
                        +:+ "' object has no attribute 'get'"))) /\
  handle "list_tables" (Parsed v) w = (w, tables_reply (tables w).*1).
Proof.
  intros Hv. split; [|done].
  intros fn. rewrite !elem_of_cons, elem_of_nil.
  intros [->|[->|[->|[->|[]]]]]; by destruct v.
Qed.

(** X12.  Filters that are truthy but not a mapping: on an empty table the
    query still answers with no data, since the filters are only opened
    per record; on a table with records it answers that the value has no
    attribute [items]. *)
Theorem filters_must_be_a_mapping (w : world) (T : string) (filters : json)
  (rows : list dict) :
  T <> "" ->
  tables_lookup (JStr T) (tables w) = Some rows ->
  truthy filters = true -> is_record filters = false ->
  (rows = [] ->
   handle "query" (call [("table", JStr T); ("filters", filters)]) w
   = (w, data_reply [])) /\
  (rows <> [] ->
   handle "query" (call [("table", JStr T); ("filters", filters)]) w
   = (w, error_reply ("'" +:+ type_name filters
                      +:+ "' object has no attribute 'items'"))).
Proof.
  intros HT Hrows Ht Hf. apply truthy_str in HT.
  assert (handle "query" (call [("table", JStr T); ("filters", filters)]) w
          = match filter_rows filters rows with
            | Ok results => (w, data_reply results)
            | Raise e => (w, error_reply (exn_str py_repr e))
            end) as ->.
  { unfold call. enter_handler. rewrite HT. cbn [negb].
    unfold bind at 1. unfold tables_contains. cbn [hashable].
    rewrite Hrows. cbn [negb].
    unfold bind at 1. unfold tables_getitem. cbn [hashable].
    rewrite Hrows, Ht. unfold bind, lift, ret.
    by destruct (filter_rows filters rows). }
  split.
  - by intros ->.
  - intros Hne. destruct rows as [|item rest]; [done|].
    by destruct filters.
Qed.

(** X13.  Updates that are truthy but not a mapping, for a table of the store
    with a non-empty name and a truthy id: when a record has the id,
    update answers that the value has no attribute [items] and changes
    nothing; when none has, it answers not-found as for a mapping. *)
Theorem updates_must_be_a_mapping (w : world) (T : string) (i updates : json)
  (rows : list dict) :
  T <> "" -> truthy i = true ->
  tables_lookup (JStr T) (tables w) = Some rows ->
  truthy updates = true -> is_record updates = false ->
  (forall n r, first_match i rows n r ->
   handle "update"
     (call [("table", JStr T); ("id", i); ("updates", updates)]) w
   = (w, error_reply ("'" +:+ type_name updates
                      +:+ "' object has no attribute 'items'"))) /\
  (no_match i rows ->
   handle "update"
     (call [("table", JStr T); ("id", i); ("updates", updates)]) w
   = (w, error_reply ("Record with id " +:+ py_str py_repr i
                      +:+ " not found in table " +:+ T))).
Proof.
  intros HT Hi Hrows Ht Hu. apply truthy_str in HT.
  assert (forall found,
            find_record i 0 rows = found ->
            handle "update"
              (call [("table", JStr T); ("id", i); ("updates", updates)]) w
            = match found with
              | Some _ =>
                  (w, error_reply ("'" +:+ type_name updates
                                   +:+ "' object has no attribute 'items'"))
              | None =>
                  (w, error_reply ("Record with id " +:+ py_str py_repr i
                                   +:+ " not found in table " +:+ T))
              end) as Hrun.
  { intros found Hfound. unfold call. enter_handler.
    rewrite HT, Hi, Ht. cbn [negb].
    unfold bind at 1. unfold tables_contains. cbn [hashable].
    rewrite Hrows. cbn [negb].
    unfold bind at 1. unfold tables_getitem. cbn [hashable].
    rewrite Hrows, Hfound. destruct found; [|done].
    by destruct updates. }
  split.
  - intros n r Hfirst. by apply (Hrun (Some n)), (find_record_first _ _ _ r).
  - intros Hno. by apply (Hrun None), find_record_none.
Qed.

(** *** Table names are compared with [==] *)

Lemma py_eq_hashable_compat (k1 k2 k : json) :
  hashable k1 = true -> hashable k2 = true -> py_eq k1 k2 = true ->
  py_eq k k1 = py_eq k k2.
Proof.
  destruct k1 as [|b1|n1|s1|?|?], k2 as [|b2|n2|s2|?|?]; try done;
    destruct k as [|b|n|s|?|?]; cbn [py_eq]; try done; intros _ _ H;
    try (apply Z.eqb_eq in H); try (apply String.eqb_eq in H);
    try (apply Bool.eqb_prop in H); subst; try done;
    repeat match goal with b : bool |- _ => destruct b end; done.
Qed.

Lemma lookup_py_eq (k1 k2 : json) (t : list (json * list dict)) :
  hashable k1 = true -> hashable k2 = true -> py_eq k1 k2 = true ->
  tables_lookup k1 t = tables_lookup k2 t.
Proof.
  intros H1 H2 H. induction t as [|[k rows] t IH]; cbn [tables_lookup];
    [done|].
  by rewrite (py_eq_hashable_compat k1 k2 k), IH.
Qed.

Lemma query_run_key (key : json) (F : dict) (w : world) (rows : list dict) :
  truthy key = true -> hashable key = true ->
  tables_lookup key (tables w) = Some rows ->
  handle "query" (call [("table", key); ("filters", JObj F)]) w
  = (w, data_reply (List.filter (matches F) rows)).
Proof.
  intros Ht Hh Hrows. unfold call. enter_handler.
  rewrite Ht. cbn [negb].
  unfold bind at 1. unfold tables_contains. rewrite Hh, Hrows. cbn [negb].
  unfold bind at 1. unfold tables_getitem. rewrite Hh, Hrows. unfold bind.
  destruct F as [|kv F]; cbn [truthy]; unfold lift, ret.
  - by rewrite filter_no_filters.
  - by rewrite filter_rows_obj.
Qed.

(** X14.  Table names need not be strings, and they are looked up with [==]:
    two truthy names that are strings, numbers or booleans and are equal
    for Python name the same table, so that a query under one answers with
    the records stored under the other, as [true] does for the table
    created under [1]. *)
Theorem table_names_compare_by_eq (w : world) (k1 k2 : json) (F : dict)
  (rows : list dict) :
  hashable k1 = true -> hashable k2 = true ->
  truthy k1 = true -> truthy k2 = true ->
  py_eq k1 k2 = true ->
  tables_lookup k1 (tables w) = Some rows ->
  handle "query" (call [("table", k2); ("filters", JObj F)]) w
  = (w, data_reply (List.filter (matches F) rows)).
Proof.
  intros H1 H2 Ht1 Ht2 Heq Hrows. apply query_run_key; try done.
  by rewrite <- (lookup_py_eq k1 k2).
Qed.

(** *** The descriptor and the dispatcher agree *)

(** X15.  The function names [root()] lists are exactly the names the handler
    dispatches: with an empty body each listed name reaches its own code
    (the four operations ask for their table, list_tables lists), and
    every other name is answered as not supported. *)
Theorem root_lists_the_dispatched_functions (w : world)
  (function_name : string) :
  exists names,
    match root with
    | JObj fields => dict_get "functions" fields
    | _ => None
    end = Some (JArr names) /\
    (JStr function_name ∈ names ->
     handle function_name EmptyBody w
     = (w, error_reply "table parameter is required") \/
     handle function_name EmptyBody w = (w, tables_reply (tables w).*1)) /\
    (JStr function_name ∉ names ->
     forall body, parses body = true ->
       handle function_name body w
       = (w, error_reply ("Function " +:+ function_name
                          +:+ " not supported"))).
Proof.
  eexists. split; [reflexivity|]. split.
  - rewrite !elem_of_cons, elem_of_nil.
    intros [[= ->]|[[= ->]|[[= ->]|[[= ->]|[[= ->]|[]]]]]];
      [by left | by left | by left | by left | by right].
  - rewrite !not_elem_of_cons. intros (Hq & Hi & Hu & Hd & Hl & _) body Hb.
    assert (function_name <> "query") as Hq' by congruence.
    assert (function_name <> "insert") as Hi' by congruence.
    assert (function_name <> "update") as Hu' by congruence.
    assert (function_name <> "delete") as Hd' by congruence.
    assert (function_name <> "list_tables") as Hl' by congruence.
    unfold handle_mcp_request, dispatch.
    apply String.eqb_neq in Hq', Hi', Hu', Hd', Hl'.
    rewrite Hq', Hi', Hu', Hd', Hl'. by destruct body.
Qed.

(** *** The shapes of the replies *)

Lemma answers_ret {A} (Q : A -> Prop) (a : A) : Q a -> answers Q (ret a).
Proof. by intros H w. Qed.

Lemma answers_raise {A} (Q : A -> Prop) (e : pyexn) : answers Q (raise e).
Proof. by intros w. Qed.

Lemma answers_bind {A B} (Q : B -> Prop) (m : M A) (f : A -> M B) :
  (forall a, answers Q (f a)) -> answers Q (bind m f).
Proof.
  intros Hf w. unfold bind. destruct (m w) as [w' [a|e]]; [apply Hf | done].
Qed.

Ltac answers_step :=
  lazymatch goal with
  | |- answers _ (bind _ _) => apply answers_bind; intros ?
  | |- answers _ (raise _) => apply answers_raise
  | |- answers _ (ret _) => apply answers_ret
  | |- answers _ (if ?b then _ else _) => destruct b
  | |- answers _ (match ?x with _ => _ end) => destruct x
  end.

Lemma answers_dispatch (function_name : string) (parameters : json) :
  answers (fun reply => is_error reply \/ success_shape function_name reply)
    (dispatch uuid4 py_repr function_name parameters).
Proof.
  unfold dispatch, success_shape.
  destruct (String.eqb_spec function_name "query") as [->|_].
  { unfold handle_query. repeat answers_step;
      first [ left; by eexists | right; left; split; [done | by eexists] ]. }
  destruct (String.eqb_spec function_name "insert") as [->|_].
  { unfold handle_insert. repeat answers_step;
      first [ left; by eexists
            | right; right; left; split; [done | by eexists] ]. }
  destruct (String.eqb_spec function_name "update") as [->|_].
  { unfold handle_update. repeat answers_step;
      first [ left; by eexists | right; right; right; left; by split ]. }
  destruct (String.eqb_spec function_name "delete") as [->|_].
  { unfold handle_delete. repeat answers_step;
      first [ left; by eexists
            | right; right; right; right; left; by split ]. }
  destruct (String.eqb_spec function_name "list_tables") as [->|_].
  { intros w. cbn. right. right. right. right. right. split; [done|].
    by eexists. }
  apply answers_ret. left. by eexists.
Qed.

(** X16.  Whatever the function name and the body, the reply is an error object
    or the success reply of that function: [data] for query, [ids] and
    [success] for insert, [success] alone for update and delete, [tables]
    for list_tables; no function answers with the reply of another. *)
Theorem replies_have_the_shape_of_their_function (w : world)
  (function_name : string) (body : request_body) :
  is_error (snd (handle function_name body w)) \/
  success_shape function_name (snd (handle function_name body w)).
Proof.
  unfold handle_mcp_request.
  destruct body as [| |m|v]; [| left; by eexists | left; by eexists |].
  - pose proof (answers_dispatch function_name (JObj []) w) as H.
    destruct (dispatch _ _ _ _ w) as [w' [reply|e]]; cbn [snd] in *;
      [done | left; by eexists].
  - pose proof (answers_dispatch function_name v w) as H.
    destruct (dispatch _ _ _ _ w) as [w' [reply|e]]; cbn [snd] in *;
      [done | left; by eexists].
Qed.

(** *** What a query sees after a write *)

Lemma no_match_delete (i : json) (rows : list dict) (n : nat) :
  (forall m r', m <> n -> rows !! m = Some r' ->
     py_eq (record_id_of r') i = false) ->
  no_match i (delete n rows).
Proof.
  intros Hothers. unfold no_match. apply Forall_lookup. intros m r' Hm.
  destruct (decide (m < n)) as [Hlt|Hge].
  - rewrite list_lookup_delete_lt in Hm by done. apply (Hothers m); [lia|done].
  - rewrite list_lookup_delete_ge in Hm by lia.
    apply (Hothers (S m)); [lia|done].
Qed.

(** X17.  Delete, then query.  After a successful delete the table is still
    there, also when its last record went: the query without filters
    answers with the remaining records, in order; and when no other record
    had the id, the query filtered on that id answers with no record. *)
Theorem delete_then_query (w : world) (T : string) (i : json)
  (rows : list dict) (n : nat) (r : dict) :
  T <> "" -> truthy i = true ->
  tables_lookup (JStr T) (tables w) = Some rows ->
  first_match i rows n r ->
  exists w',
    handle "delete" (delete_call T i) w = (w', success_reply) /\
    handle "query" (query_call T []) w' = (w', data_reply (delete n rows)) /\
    ((forall m r', m <> n -> rows !! m = Some r' ->
        py_eq (record_id_of r') i = false) ->
     handle "query" (query_call T [("id", i)]) w' = (w', data_reply [])).
Proof.
  intros HT Hi Hrows Hfirst.
  pose proof (find_record_first _ _ _ _ Hfirst) as Hn.
  assert (tables_lookup (JStr T)
            (tables_store (JStr T) (delete n rows) (tables w))
          = Some (delete n rows)) as Hrows' by by eapply lookup_store_hit.
  eexists. split_and!.
  - by apply delete_run.
  - rewrite (query_run _ _ _ (delete n rows)) by done.
    by rewrite filter_no_filters.
  - intros Hothers. rewrite (query_run _ _ _ (delete n rows)) by done.
    by rewrite filter_no_match by by apply no_match_delete.
Qed.

Lemma matches_merged (U record : dict) :
  NoDup U.*1 ->
  (forall k v, (k, v) ∈ U -> py_eq v v = true) ->
  matches U (merged U record) = true.
Proof.
  intros Hnd Hh. apply matches_spec. intros k v Hin.
  apply list_elem_of_In in Hin. exists v. split.
  - by apply dict_get_merged_in.
  - by apply (Hh k).
Qed.

(** X18.  Update, then query.  After a successful update (a table of the store
    with a non-empty name, a truthy id that some record has, a non-empty
    mapping with distinct keys) whose new values are each equal to themselves under [==], the
    query of the table filtered on the very mapping of the update answers
    with records of the table among which is the updated one.  The values
    are any values of [json], which has no floats; that they equal
    themselves is a hypothesis, not a property of [==]. *)
Theorem update_then_query (w : world) (T : string) (i : json) (U : dict)
  (rows : list dict) (n : nat) (r : dict) :
  T <> "" -> truthy i = true -> U <> [] -> NoDup U.*1 ->
  (forall k v, (k, v) ∈ U -> py_eq v v = true) ->
  tables_lookup (JStr T) (tables w) = Some rows ->
  first_match i rows n r ->
  exists w' results,
    handle "update" (update_call T i U) w = (w', success_reply) /\
    handle "query" (query_call T U) w' = (w', data_reply results) /\
    merged U r ∈ results /\
    (forall item, item ∈ results -> item ∈ <[n := merged U r]> rows).
Proof.
  intros HT Hi HU Hnd Hh Hrows Hfirst.
  pose proof (find_record_first _ _ _ _ Hfirst) as Hn.
  destruct Hfirst as (Hr & _ & _).
  eexists _, _. split_and!.
  - by apply update_run.
  - apply (query_run _ _ _ (<[n := merged U r]> rows)); [done|].
    cbn [tables]. rewrite (alter_as_insert _ _ _ _ Hr).
    by eapply lookup_store_hit.
  - apply list_elem_of_In, List.filter_In. split.
    + apply list_elem_of_In, list_elem_of_lookup. exists n.
      apply list_lookup_insert_eq. by eapply lookup_lt_Some.
    + by apply matches_merged.
  - intros item Hin. apply list_elem_of_In, List.filter_In in Hin as [Hin _].
    by apply list_elem_of_In.
Qed.

Lemma first_match_app (i : json) (rows more : list dict) (n : nat)
  (r : dict) :
  first_match i rows n r -> first_match i (rows ++ more) n r.
Proof.
  intros (Hn & Hid & Hfirst). split_and!.
  - by apply lookup_app_l_Some.
  - done.
  - intros j r' Hj Hl. apply (Hfirst j); [done|].
    rewrite lookup_app_l in Hl; [done|].
    apply lookup_lt_Some in Hn. lia.
Qed.

(** X19.  Duplicate ids are accepted, and the older record shadows the newer.
    When a record of a table with a non-empty name already has the truthy
    id [i], inserting another record whose id equals [i] succeeds and
    stores it after the others; the first match of [i] stays the older
    record, so an update of [i] with a non-empty mapping changes the older
    record and leaves the new one as inserted. *)
Theorem duplicate_ids_are_accepted (w : world) (T : string) (i x : json)
  (U r r0 : dict) (rows : list dict) (n : nat) :
  T <> "" -> truthy i = true -> U <> [] ->
  tables_lookup (JStr T) (tables w) = Some rows ->
  first_match i rows n r0 ->
  dict_get "id" r = Some x -> py_eq x i = true ->
  exists w1 w2,
    handle "insert" (insert_call T [r]) w = (w1, ids_reply [x]) /\
    tables_lookup (JStr T) (tables w1) = Some (rows ++ [r]) /\
    first_match i (rows ++ [r]) n r0 /\
    handle "update" (update_call T i U) w1 = (w2, success_reply) /\
    tables_lookup (JStr T) (tables w2)
    = Some (<[n := merged U r0]> rows ++ [r]).
Proof.
  intros HT Hi HU Hrows Hfirst Hx Hxi.
  pose proof (first_match_app _ _ [r] _ _ Hfirst) as Hfirst'.
  pose proof (find_record_first _ _ _ _ Hfirst') as Hn.
  assert (stamped uuid4 (uuid_draws w) r = r) as Hst.
  { unfold stamped, assigned_id. rewrite Hx. by apply dict_set_same. }
  assert (assigned_id uuid4 (uuid_draws w) r = x) as Ha.
  { unfold assigned_id. by rewrite Hx. }
  assert (tables_lookup (JStr T)
            (tables_store (JStr T) (rows ++ [r]) (tables w))
          = Some (rows ++ [r])) as Hrows1 by by eapply lookup_store_hit.
  destruct Hfirst as (Hr0 & _ & _).
  eexists _, _. split_and!.
  - rewrite insert_one_run by done. rewrite Hrows, Hst, Ha. reflexivity.
  - exact Hrows1.
  - exact Hfirst'.
  - by apply (update_run _ _ _ _ (rows ++ [r]) n).
  - cbn [tables]. rewrite (lookup_store_hit _ _ _ _ Hrows1).
    f_equal. rewrite alter_app_l by by eapply lookup_lt_Some.
    by rewrite (alter_as_insert _ _ _ _ Hr0).
Qed.

(** X20.  Query creates nothing: on a table name that passes the parameter test
    and can be looked up but is not in the store, whatever the filters,
    it answers "Table <table> not found" and writes nothing. *)
Theorem query_unknown_table (w : world) (P : dict) (table_name : json) :
  dict_get "table" P = Some table_name ->
  truthy table_name = true -> hashable table_name = true ->
  tables_lookup table_name (tables w) = None ->
  handle "query" (call P) w
  = (w, error_reply ("Table " +:+ py_str py_repr table_name
                     +:+ " not found")).
Proof.
  intros Htable Ht Hh Hnone. unfold call. enter_handler.
  rewrite Htable, Ht. cbn [negb].
  unfold bind at 1. unfold tables_contains. by rewrite Hh, Hnone.
Qed.

End Properties.

(** * Closed instances *)

Lemma seed_reachable : reachable sample_uuid4 sample_repr seed.
Proof. apply reach_here. Defined.

Lemma sample_run_reachable (requests : list (string * request_body))
  (w : world) :
  reachable_from sample_uuid4 sample_repr w (sample_run requests w).
Proof.
  assert (forall w', reachable_from sample_uuid4 sample_repr w w' ->
            reachable_from sample_uuid4 sample_repr w (sample_run requests w'))
    as H; [|apply H, reach_here].
  induction requests as [|[fn body] rest IH]; intros w' Hw'; [done|].
  apply IH. by apply reach_step.
Defined.

(** The scenario of the seed: the one user named John Doe. *)
Lemma query_returns_matching_records_witness :
  sample_handle "query" (query_call "users" [("name", JStr "John Doe")]) seed
  = (seed,
     data_reply [[("id", JStr "1"); ("name", JStr "John Doe");
                  ("email", JStr "john@example.com")]]).
Proof.
  destruct (query_returns_matching_records sample_uuid4 sample_repr seed
              "users" [("name", JStr "John Doe")] seed_users
              seed_reachable eq_refl) as (H & _).
  exact H.
Defined.

(** C1 as stated fails: after a record with [admin: true] is inserted,
    filtering on [admin: 1] returns it, although [true] and [1] are not
    the same JSON value. *)
Lemma query_strict_equality_refuted :
  reachable sample_uuid4 sample_repr
    (sample_run
       [("insert",
         insert_call "users" [[("id", JStr "3"); ("admin", JBool true)]])]
       seed) /\
  snd (sample_handle "query" (query_call "users" [("admin", JInt 1)])
         (sample_run
            [("insert",
              insert_call "users" [[("id", JStr "3"); ("admin", JBool true)]])]
            seed))
  = data_reply [[("id", JStr "3"); ("admin", JBool true)]] /\
  ~ strict_match [("admin", JInt 1)] [("id", JStr "3"); ("admin", JBool true)].
Proof.
  split_and!.
  - apply sample_run_reachable.
  - reflexivity.
  - intros H. destruct (H "admin" (JInt 1)) as (x & Hx & Hxv); [by left|].
    injection Hx as <-. discriminate Hxv.
Qed.

(** The scenario of the seed: post 1 gets a new title and keeps its
    content. *)
Lemma update_merges_into_first_match_witness :
  exists w' r',
    sample_handle "update"
      (update_call "posts" (JStr "1") [("title", JStr "Edited")]) seed
    = (w', success_reply) /\
    tables_lookup (JStr "posts") (tables w')
    = Some [r';
            [("id", JStr "2"); ("title", JStr "Second Post");
             ("content", JStr "Another post"); ("user_id", JStr "2")]] /\
    dict_get "title" r' = Some (JStr "Edited") /\
    dict_get "content" r' = Some (JStr "Hello World").
Proof.
  destruct (update_merges_into_first_match sample_uuid4 sample_repr seed
              "posts" (JStr "1") [("title", JStr "Edited")] seed_posts 0
              [("id", JStr "1"); ("title", JStr "First Post");
               ("content", JStr "Hello World"); ("user_id", JStr "1")]
              seed_reachable eq_refl)
    as (w' & r' & H1 & H2 & H3 & H4 & _).
  - done.
  - apply NoDup_singleton.
  - reflexivity.
  - split_and!; [reflexivity | reflexivity | intros j r' Hj; lia].
  - exists w', r'. split_and!.
    + exact H1.
    + exact H2.
    + apply H3. by left.
    + rewrite H4; [reflexivity|]. cbn. by rewrite list_elem_of_singleton.
Defined.

(** C2 as stated fails: a record whose id is the empty string is the
    first match of that id, yet update answers that the id is missing and
    changes nothing. *)
Lemma update_falsy_id_refuted :
  exists rows r,
    reachable sample_uuid4 sample_repr
      (sample_run
         [("insert", insert_call "users" [[("id", JStr "")]])] seed) /\
    tables_lookup (JStr "users")
      (tables (sample_run
                 [("insert", insert_call "users" [[("id", JStr "")]])] seed))
    = Some rows /\
    first_match (JStr "") rows 2 r /\
    sample_handle "update"
      (update_call "users" (JStr "") [("name", JStr "Nobody")])
      (sample_run [("insert", insert_call "users" [[("id", JStr "")]])] seed)
    = (sample_run [("insert", insert_call "users" [[("id", JStr "")]])] seed,
       error_reply "id parameter is required") /\
    error_reply "id parameter is required" <> success_reply.
Proof.
  eexists _, _. split_and!.
  - apply sample_run_reachable.
  - reflexivity.
  - split_and!; [reflexivity | reflexivity |].
    intros [|[|j]] r' Hj; [by intros [= <-] | by intros [= <-] | lia].
  - reflexivity.
  - discriminate.
Qed.

(** The scenario of the seed: user 2 is deleted, and deleting her again
    is answered with not-found. *)
Lemma delete_removes_first_match_witness :
  exists w',
    sample_handle "delete" (delete_call "users" (JStr "2")) seed
    = (w', success_reply) /\
    tables_lookup (JStr "users") (tables w')
    = Some [[("id", JStr "1"); ("name", JStr "John Doe");
             ("email", JStr "john@example.com")]] /\
    sample_handle "delete" (delete_call "users" (JStr "2")) w'
    = (w', error_reply "Record with id 2 not found in table users").
Proof.
  destruct (delete_removes_first_match sample_uuid4 sample_repr seed
              "users" (JStr "2") seed_users 1
              [("id", JStr "2"); ("name", JStr "Jane Smith");
               ("email", JStr "jane@example.com")]
              seed_reachable eq_refl eq_refl)
    as (w' & H1 & H2 & _ & _ & _ & _ & H7 & _).
  - split_and!; [reflexivity | reflexivity |].
    intros [|j] r' Hj; [by intros [= <-] | lia].
  - exists w'. split_and!; [exact H1 | exact H2 |].
    apply H7. repeat constructor.
Defined.

(** C3 as stated fails twice.  A record whose id is the empty string is
    matched by that id, yet delete answers that the id is missing; and
    when two records share id 1, the delete repeated right after a
    successful delete succeeds again instead of answering not-found. *)
Lemma delete_claim_refuted :
  (exists rows r,
     reachable sample_uuid4 sample_repr
       (sample_run
          [("insert", insert_call "users" [[("id", JStr "")]])] seed) /\
     tables_lookup (JStr "users")
       (tables (sample_run
                  [("insert", insert_call "users" [[("id", JStr "")]])] seed))
     = Some rows /\
     first_match (JStr "") rows 2 r /\
     sample_handle "delete" (delete_call "users" (JStr ""))
       (sample_run [("insert", insert_call "users" [[("id", JStr "")]])] seed)
     = (sample_run [("insert", insert_call "users" [[("id", JStr "")]])] seed,
        error_reply "id parameter is required") /\
     error_reply "id parameter is required" <> success_reply) /\
  (reachable sample_uuid4 sample_repr
     (sample_run
        [("insert", insert_call "users" [[("id", JStr "1")]])] seed) /\
   snd (sample_handle "delete" (delete_call "users" (JStr "1"))
          (sample_run
             [("insert", insert_call "users" [[("id", JStr "1")]])] seed))
   = success_reply /\
   snd (sample_handle "delete" (delete_call "users" (JStr "1"))
          (sample_run
             [("insert", insert_call "users" [[("id", JStr "1")]]);
              ("delete", delete_call "users" (JStr "1"))] seed))
   = success_reply /\
   success_reply
   <> error_reply "Record with id 1 not found in table users").
Proof.
  split.
  - eexists _, _. split_and!.
    + apply sample_run_reachable.
    + reflexivity.
    + split_and!; [reflexivity | reflexivity |].
      intros [|[|j]] r' Hj; [by intros [= <-] | by intros [= <-] | lia].
    + reflexivity.
    + discriminate.
  - split_and!;
      [apply sample_run_reachable | reflexivity | reflexivity | discriminate].
Qed.

(** The scenario of the seed: one comment without an id is inserted and
    comes back with the UUID of the first draw. *)
Lemma insert_appends_in_order_witness :
  exists w' ids new,
    sample_handle "insert"
      (insert_call "comments"
         [[("post_id", JStr "2"); ("user_id", JStr "1");
           ("content", JStr "Nice")]]) seed
    = (w', ids_reply ids) /\
    tables_lookup (JStr "comments") (tables w') = Some (seed_comments ++ new) /\
    ids !! 0 = Some (JStr "uuid-0") /\
    new !! 0 = Some [("post_id", JStr "2"); ("user_id", JStr "1");
                     ("content", JStr "Nice"); ("id", JStr "uuid-0")] /\
    length new = 1.
Proof.
  destruct (insert_appends_in_order sample_uuid4 sample_repr seed "comments"
              [[("post_id", JStr "2"); ("user_id", JStr "1");
                ("content", JStr "Nice")]])
    as (w' & ids & new & H1 & H2 & H3 & _ & H5 & _); [done | done |].
  exists w', ids, new.
  destruct (H5 0 _ eq_refl) as [Hid Hnew].
  split_and!; [exact H1 | exact H2 | exact Hid | exact Hnew | exact H3].
Defined.

(** C4 as stated fails: with the empty string as table name nothing is
    appended and no ids are answered. *)
Lemma insert_empty_name_refuted :
  sample_handle "insert" (insert_call "" [[("name", JStr "Ann")]]) seed
  = (seed, error_reply "table parameter is required") /\
  forall ids, error_reply "table parameter is required" <> ids_reply ids.
Proof. split; [reflexivity | discriminate]. Qed.

(** The scenario of the seed: user 99 does not exist; neither does the
    table of invoices. *)
Lemma not_found_leaves_store_unchanged_witness :
  sample_handle "delete" (delete_call "users" (JStr "99")) seed
  = (seed, error_reply "Record with id 99 not found in table users") /\
  sample_handle "update"
    (update_call "invoices" (JStr "1") [("paid", JBool true)]) seed
  = (seed, error_reply "Table invoices not found").
Proof.
  destruct (not_found_leaves_store_unchanged sample_uuid4 sample_repr seed
              [("table", JStr "users"); ("id", JStr "99")]
              (JStr "users") (JStr "99") eq_refl eq_refl eq_refl eq_refl
              eq_refl)
    as (_ & H & _).
  destruct (not_found_leaves_store_unchanged sample_uuid4 sample_repr seed
              [("table", JStr "invoices"); ("id", JStr "1");
               ("updates", JObj [("paid", JBool true)])]
              (JStr "invoices") (JStr "1") eq_refl eq_refl eq_refl eq_refl
              eq_refl)
    as (H' & _ & _).
  split.
  - apply (H seed_users eq_refl). repeat constructor.
  - by apply (H' eq_refl).
Defined.

(** A new table shows up in every later listing. *)
Lemma insert_creates_table_witness :
  exists w' ids,
    sample_handle "insert" (insert_call "tags" [[("name", JStr "rocq")]]) seed
    = (w', ids_reply ids) /\
    tables_lookup (JStr "tags") (tables w')
    = Some [[("name", JStr "rocq"); ("id", JStr "uuid-0")]] /\
    (tables w').*1
    = [JStr "users"; JStr "posts"; JStr "comments"; JStr "tags"] /\
    exists names,
      sample_handle "list_tables" EmptyBody
        (sample_run [("delete", delete_call "users" (JStr "1"))] w')
      = (sample_run [("delete", delete_call "users" (JStr "1"))] w',
         tables_reply names) /\
      JStr "tags" ∈ names.
Proof.
  destruct (insert_creates_table sample_uuid4 sample_repr seed "tags"
              [[("name", JStr "rocq")]])
    as (w' & ids & H1 & H2 & H4 & H5); [done | done | done |].
  exists w', ids. split_and!; [exact H1 | exact H2 | exact H4 |].
  apply H5; [apply sample_run_reachable | done].
Defined.

(** C6 as stated fails: the empty string is not a table of the seed, yet
    inserting under it creates nothing, and the listing that follows does
    not include it. *)
Lemma insert_creates_empty_name_refuted :
  tables_lookup (JStr "") (tables seed) = None /\
  sample_handle "insert" (insert_call "" [[("name", JStr "Ann")]]) seed
  = (seed, error_reply "table parameter is required") /\
  sample_handle "list_tables" EmptyBody seed
  = (seed, tables_reply [JStr "users"; JStr "posts"; JStr "comments"]) /\
  JStr "" ∉ [JStr "users"; JStr "posts"; JStr "comments"].
Proof.
  split_and!; [reflexivity | reflexivity | reflexivity |].
  rewrite !not_elem_of_cons. split_and!; try done. apply not_elem_of_nil.
Qed.

(** An unknown function, with an empty body and with a parsed one; an
    update with an empty body; and a query whose body is the single byte
    0xFF, on which [json.loads] raises [UnicodeDecodeError]: the answer is
    the text of that exception. *)
Lemma dispatcher_rejections_witness :
  sample_handle "drop_table" EmptyBody seed
  = (seed, error_reply "Function drop_table not supported") /\
  sample_handle "drop_table" (Parsed (JObj [("table", JStr "users")])) seed
  = (seed, error_reply "Function drop_table not supported") /\
  sample_handle "update" EmptyBody seed
  = (seed, error_reply "table parameter is required") /\
  sample_handle "query"
    (Undecodable
       "'utf-8' codec can't decode byte 0xff in position 0: invalid start byte")
    seed
  = (seed,
     error_reply
       "'utf-8' codec can't decode byte 0xff in position 0: invalid start byte")
  /\
  error_reply
    "'utf-8' codec can't decode byte 0xff in position 0: invalid start byte"
  <> error_reply "Invalid JSON in request body".
Proof.
  destruct (dispatcher_rejections sample_uuid4 sample_repr seed "drop_table")
    as (H & _ & _ & _ & _).
  destruct (dispatcher_rejections sample_uuid4 sample_repr seed "update")
    as (_ & _ & _ & _ & H').
  destruct (dispatcher_rejections sample_uuid4 sample_repr seed "query")
    as (_ & _ & H'' & _ & _).
  assert ("drop_table" ∉ supported) as Hout.
  { unfold supported. rewrite !not_elem_of_cons.
    split_and!; try done. apply not_elem_of_nil. }
  split_and!.
  - by apply H.
  - by apply H.
  - apply H'. rewrite !elem_of_cons. auto.
  - apply H''.
  - discriminate.
Defined.



(** After an insert without id and an update, every record of every table
    still has its [id] key. *)
Lemma every_record_has_id_witness :
  rows_ok
    (tables
       (sample_run
          [("insert", insert_call "users" [[("name", JStr "Ann")]]);
           ("update", update_call "users" (JStr "1") [("name", JStr "J. Doe")])]
          seed)).
Proof.
  destruct (every_record_has_id sample_uuid4 sample_repr) as (H0 & H & _).
  apply (H _ "update"
           (update_call "users" (JStr "1") [("name", JStr "J. Doe")])).
  apply (H _ "insert" (insert_call "users" [[("name", JStr "Ann")]])).
  exact H0.
Defined.

(** Update and delete with the empty string as id, update with an empty
    mapping, insert with an empty sequence. *)
Lemma falsy_parameters_are_missing_witness :
  sample_handle "update"
    (update_call "users" (JStr "") [("name", JStr "Nobody")]) seed
  = (seed, error_reply "id parameter is required") /\
  sample_handle "delete" (delete_call "no_such_table" (JInt 0)) seed
  = (seed, error_reply "id parameter is required") /\
  sample_handle "update" (update_call "users" (JStr "1") []) seed
  = (seed, error_reply "updates parameter is required") /\
  sample_handle "insert" (insert_call "users" []) seed
  = (seed, error_reply "records parameter is required") /\
  sample_handle "query" (query_call "" []) seed
  = (seed, error_reply "table parameter is required").
Proof.
  split_and!.
  - destruct (falsy_parameters_are_missing sample_uuid4 sample_repr seed
                [("table", JStr "users"); ("id", JStr "");
                 ("updates", JObj [("name", JStr "Nobody")])])
      as (_ & H & _).
    apply H; [reflexivity | reflexivity |]. rewrite !elem_of_cons. auto.
  - destruct (falsy_parameters_are_missing sample_uuid4 sample_repr seed
                [("table", JStr "no_such_table"); ("id", JInt 0)])
      as (_ & H & _).
    apply H; [reflexivity | reflexivity |]. rewrite !elem_of_cons. auto.
  - destruct (falsy_parameters_are_missing sample_uuid4 sample_repr seed
                [("table", JStr "users"); ("id", JStr "1");
                 ("updates", JObj [])])
      as (_ & _ & H & _).
    by apply H.
  - destruct (falsy_parameters_are_missing sample_uuid4 sample_repr seed
                [("table", JStr "users"); ("records", JArr [])])
      as (_ & _ & _ & H & _).
    by apply H.
  - destruct (falsy_parameters_are_missing sample_uuid4 sample_repr seed
                [("table", JStr ""); ("filters", JObj [])])
      as (H & _).
    apply H; [reflexivity|]. rewrite !elem_of_cons. auto.
Defined.

(** C10 as stated fails: an update whose [id] is present and empty, but
    whose [table] is absent, is rejected as missing its table, not its
    id. *)
Lemma falsy_id_without_table_refuted :
  given [("id", JStr ""); ("updates", JObj [("name", JStr "Nobody")])] "id"
  = false /\
  dict_get "id" [("id", JStr ""); ("updates", JObj [("name", JStr "Nobody")])]
  = Some (JStr "") /\
  sample_handle "update"
    (Parsed (JObj [("id", JStr "");
                   ("updates", JObj [("name", JStr "Nobody")])]))
    seed
  = (seed, error_reply "table parameter is required") /\
  error_reply "table parameter is required"
  <> error_reply "id parameter is required".
Proof. split_and!; [reflexivity | reflexivity | reflexivity | discriminate]. Qed.

(** * Closed instances of the further properties *)

Lemma reads_never_write_witness :
  fst (sample_handle "query" (query_call "users" [("name", JStr "Ann")]) seed)
  = seed /\
  fst (sample_handle "query" (Parsed (JArr [])) seed) = seed /\
  fst (sample_handle "list_tables" EmptyBody seed) = seed.
Proof.
  split_and!; apply reads_never_write; rewrite !elem_of_cons; auto.
Defined.

Lemma uuids_drawn_by_insert_alone_witness :
  uuid_draws
    (fst (sample_handle "update"
            (update_call "users" (JStr "1") [("name", JStr "J.")]) seed))
  = 0 /\
  uuid_draws
    (fst (sample_handle "insert"
            (insert_call "users" [[("id", JStr "3")]; [("id", JStr "4")]])
            seed))
  = 2.
Proof.
  destruct (uuids_drawn_by_insert_alone sample_uuid4 sample_repr seed)
    as [H1 H2].
  split; [by apply H1 | by apply H2].
Defined.

Lemma tables_are_never_removed_witness :
  is_Some
    (tables_lookup (JStr "users")
       (tables
          (sample_run
             [("delete", delete_call "users" (JStr "1"));
              ("delete", delete_call "users" (JStr "2"))] seed))).
Proof.
  destruct (tables_are_never_removed sample_uuid4 sample_repr seed
              (sample_run
                 [("delete", delete_call "users" (JStr "1"));
                  ("delete", delete_call "users" (JStr "2"))] seed)
              (sample_run_reachable _ _)) as [_ H].
  apply H. by eexists.
Defined.

Lemma insert_is_not_atomic_witness :
  exists w',
    sample_handle "insert"
      (call [("table", JStr "users");
             ("records", JArr [JObj [("name", JStr "Ann")]; JInt 5;
                               JObj [("name", JStr "Bob")]])]) seed
    = (w', error_reply "'int' object has no attribute 'get'") /\
    tables_lookup (JStr "users") (tables w')
    = Some (seed_users ++ [[("name", JStr "Ann"); ("id", JStr "uuid-0")]]).
Proof.
  destruct (insert_is_not_atomic sample_uuid4 sample_repr seed "users"
              [[("name", JStr "Ann")]] (JInt 5) [JObj [("name", JStr "Bob")]])
    as (w' & H1 & H2 & _); [done | done |].
  exists w'. split; [exact H1 | exact H2].
Defined.

Lemma failed_insert_leaves_table_witness :
  exists message,
    sample_handle "insert"
      (call [("table", JStr "tags"); ("records", JStr "rocq")]) seed
    = (World (seed_tables ++ [(JStr "tags", [])]) 0, error_reply message).
Proof.
  destruct (failed_insert_leaves_table sample_uuid4 sample_repr seed "tags"
              (JStr "rocq")) as (message & H & _);
    [done | done | done | right; by eexists _, _ |].
  by exists message.
Defined.

Lemma insert_then_delete_restores_witness :
  exists w1 w2,
    sample_handle "insert" (insert_call "users" [[("name", JStr "Ann")]]) seed
    = (w1, ids_reply [JStr "uuid-0"]) /\
    sample_handle "delete" (delete_call "users" (JStr "uuid-0")) w1
    = (w2, success_reply) /\
    tables w2 = tables seed.
Proof.
  destruct (insert_then_delete_restores sample_uuid4 sample_repr seed "users"
              [("name", JStr "Ann")])
    as (w1 & w2 & H1 & H2 & _ & H4);
    [done | done | done | repeat constructor |].
  exists w1, w2. split_and!; [exact H1 | exact H2 |].
  apply H4. by eexists.
Defined.

Lemma insert_then_query_by_id_witness :
  snd (sample_handle "query" (query_call "users" [("id", JStr "uuid-0")])
         (fst (sample_handle "insert"
                 (insert_call "users" [[("name", JStr "Ann")]]) seed)))
  = data_reply [[("name", JStr "Ann"); ("id", JStr "uuid-0")]].
Proof.
  destruct (insert_then_query_by_id sample_uuid4 sample_repr seed "users"
              [("name", JStr "Ann")]) as [_ H]; [done | done |].
  apply H. repeat constructor.
Defined.

Lemma update_twice_is_update_once_witness :
  exists w1,
    sample_handle "update"
      (update_call "posts" (JStr "1") [("title", JStr "Edited")]) seed
    = (w1, success_reply) /\
    sample_handle "update"
      (update_call "posts" (JStr "1") [("title", JStr "Edited")]) w1
    = (w1, success_reply).
Proof.
  apply (update_twice_is_update_once sample_uuid4 sample_repr seed "posts"
           (JStr "1") [("title", JStr "Edited")] seed_posts 0
           [("id", JStr "1"); ("title", JStr "First Post");
            ("content", JStr "Hello World"); ("user_id", JStr "1")]);
    [done | done | done | | | done |].
  - apply NoDup_singleton.
  - cbn. by rewrite list_elem_of_singleton.
  - split_and!; [reflexivity | reflexivity | intros j r' Hj; lia].
Defined.

Lemma update_can_change_id_witness :
  exists w',
    sample_handle "update"
      (update_call "users" (JStr "2") [("id", JStr "two")]) seed
    = (w', success_reply) /\
    sample_handle "delete" (delete_call "users" (JStr "2")) w'
    = (w', error_reply "Record with id 2 not found in table users").
Proof.
  destruct (update_can_change_id sample_uuid4 sample_repr seed "users"
              (JStr "2") (JStr "two") seed_users 1
              [("id", JStr "2"); ("name", JStr "Jane Smith");
               ("email", JStr "jane@example.com")])
    as (w' & H1 & _ & _ & H4); [done | done | done | |].
  - split_and!; [reflexivity | reflexivity |].
    intros [|j] r' Hj; [by intros [= <-] | lia].
  - exists w'. split; [exact H1|]. apply H4; [done|].
    intros [|[|m]] r' Hm; [by intros [= <-] | done | done].
Defined.

Lemma unhashable_table_name_witness :
  sample_handle "query" (call [("table", JArr [JStr "users"])]) seed
  = (seed, error_reply "unhashable type: 'list'") /\
  sample_handle "insert"
    (call [("table", JObj [("name", JStr "users")]);
           ("records", JArr [JObj []])]) seed
  = (seed, error_reply "unhashable type: 'dict'").
Proof.
  split.
  - by apply (unhashable_table_name sample_uuid4 sample_repr seed
                [("table", JArr [JStr "users"])] (JArr [JStr "users"])).
  - by apply (unhashable_table_name sample_uuid4 sample_repr seed
                [("table", JObj [("name", JStr "users")]);
                 ("records", JArr [JObj []])]
                (JObj [("name", JStr "users")])).
Defined.

Lemma parameters_must_be_an_object_witness :
  sample_handle "delete" (Parsed (JArr [])) seed
  = (seed, error_reply "'list' object has no attribute 'get'") /\
  sample_handle "query" (Parsed JNull) seed
  = (seed, error_reply "'NoneType' object has no attribute 'get'").
Proof.
  split.
  - apply (parameters_must_be_an_object sample_uuid4 sample_repr seed
             (JArr [])); [done|]. rewrite !elem_of_cons. auto.
  - apply (parameters_must_be_an_object sample_uuid4 sample_repr seed JNull);
      [done|]. rewrite !elem_of_cons. auto.
Defined.

Lemma filters_must_be_a_mapping_witness :
  sample_handle "query"
    (call [("table", JStr "users"); ("filters", JStr "name")]) seed
  = (seed, error_reply "'str' object has no attribute 'items'").
Proof.
  by apply (filters_must_be_a_mapping sample_uuid4 sample_repr seed "users"
              (JStr "name") seed_users).
Defined.

Lemma updates_must_be_a_mapping_witness :
  sample_handle "update"
    (call [("table", JStr "users"); ("id", JStr "1");
           ("updates", JArr [JStr "name"])]) seed
  = (seed, error_reply "'list' object has no attribute 'items'").
Proof.
  destruct (updates_must_be_a_mapping sample_uuid4 sample_repr seed "users"
              (JStr "1") (JArr [JStr "name"]) seed_users)
    as [H _]; [done | done | done | done | done |].
  apply (H 0 [("id", JStr "1"); ("name", JStr "John Doe");
              ("email", JStr "john@example.com")]).
  split_and!; [reflexivity | reflexivity | intros j r' Hj; lia].
Defined.

Lemma table_names_compare_by_eq_witness :
  sample_handle "query"
    (call [("table", JBool true); ("filters", JObj [])])
    (sample_run
       [("insert",
         call [("table", JInt 1);
               ("records", JArr [JObj [("id", JStr "a")]])])] seed)
  = (sample_run
       [("insert",
         call [("table", JInt 1);
               ("records", JArr [JObj [("id", JStr "a")]])])] seed,
     data_reply [[("id", JStr "a")]]).
Proof.
  by apply (table_names_compare_by_eq sample_uuid4 sample_repr _
              (JInt 1) (JBool true) [] [[("id", JStr "a")]]).
Defined.

Lemma root_lists_the_dispatched_functions_witness :
  sample_handle "health" EmptyBody seed
  = (seed, error_reply "Function health not supported").
Proof.
  destruct (root_lists_the_dispatched_functions sample_uuid4 sample_repr seed
              "health") as (names & Hnames & _ & H).
  injection Hnames as <-. apply H; [|done].
  rewrite !not_elem_of_cons. split_and!; try done. apply not_elem_of_nil.
Defined.

Lemma delete_then_query_witness :
  exists w',
    sample_handle "delete" (delete_call "users" (JStr "1")) seed
    = (w', success_reply) /\
    sample_handle "query" (query_call "users" [("id", JStr "1")]) w'
    = (w', data_reply []).
Proof.
  destruct (delete_then_query sample_uuid4 sample_repr seed "users"
              (JStr "1") seed_users 0
              [("id", JStr "1"); ("name", JStr "John Doe");
               ("email", JStr "john@example.com")])
    as (w' & H1 & _ & H3); [done | done | done | |].
  - split_and!; [reflexivity | reflexivity | intros j r' Hj; lia].
  - exists w'. split; [exact H1|]. apply H3.
    intros [|[|m]] r' Hm; [done | by intros [= <-] | done].
Defined.

Lemma update_then_query_witness :
  exists w' results,
    sample_handle "update"
      (update_call "posts" (JStr "1") [("title", JStr "Edited")]) seed
    = (w', success_reply) /\
    sample_handle "query" (query_call "posts" [("title", JStr "Edited")]) w'
    = (w', data_reply results) /\
    [("id", JStr "1"); ("title", JStr "Edited");
     ("content", JStr "Hello World"); ("user_id", JStr "1")] ∈ results.
Proof.
  destruct (update_then_query sample_uuid4 sample_repr seed "posts"
              (JStr "1") [("title", JStr "Edited")] seed_posts 0
              [("id", JStr "1"); ("title", JStr "First Post");
               ("content", JStr "Hello World"); ("user_id", JStr "1")])
    as (w' & results & H1 & H2 & H3 & _); [done | done | done | | | done | |].
  - apply NoDup_singleton.
  - intros k v Hin. apply list_elem_of_singleton in Hin.
    by injection Hin as _ ->.
  - split_and!; [reflexivity | reflexivity | intros j r' Hj; lia].
  - exists w', results. split_and!; [exact H1 | exact H2 | exact H3].
Defined.

Lemma duplicate_ids_are_accepted_witness :
  exists w1 w2,
    sample_handle "insert"
      (insert_call "users" [[("id", JStr "1"); ("name", JStr "Twin")]]) seed
    = (w1, ids_reply [JStr "1"]) /\
    sample_handle "update"
      (update_call "users" (JStr "1") [("name", JStr "J.")]) w1
    = (w2, success_reply) /\
    tables_lookup (JStr "users") (tables w2)
    = Some [[("id", JStr "1"); ("name", JStr "J.");
             ("email", JStr "john@example.com")];
            [("id", JStr "2"); ("name", JStr "Jane Smith");
             ("email", JStr "jane@example.com")];
            [("id", JStr "1"); ("name", JStr "Twin")]].
Proof.
  destruct (duplicate_ids_are_accepted sample_uuid4 sample_repr seed "users"
              (JStr "1") (JStr "1") [("name", JStr "J.")]
              [("id", JStr "1"); ("name", JStr "Twin")]
              [("id", JStr "1"); ("name", JStr "John Doe");
               ("email", JStr "john@example.com")]
              seed_users 0)
    as (w1 & w2 & H1 & _ & _ & H4 & H5);
    [done | done | done | done | | done | done |].
  - split_and!; [reflexivity | reflexivity | intros j r' Hj; lia].
  - exists w1, w2. split_and!; [exact H1 | exact H4 | exact H5].
Defined.

Lemma query_unknown_table_witness :
  sample_handle "query" (query_call "invoices" []) seed
  = (seed, error_reply "Table invoices not found").
Proof.
  by apply (query_unknown_table sample_uuid4 sample_repr seed
              [("table", JStr "invoices"); ("filters", JObj [])]
              (JStr "invoices")).
Defined.
